(** * The extraction form of [src/App.tsx], embedded and verified

    The file has three parts.

    - [JS]: the fragment of the ECMAScript platform that [App.tsx] calls:
      strings as sequences of UTF-16 code units, [String.prototype.trim],
      [parseInt], the one regular expression of the program, [JSON.parse]
      and the property reads and coercions performed on its result.
    - [App]: the component itself, one definition per function of the
      source, with React state as an explicit record and the asynchronous
      handler split at its suspension point.
    - the properties of the form controller. *)

From Stdlib Require Import List NArith ZArith Bool Lia String Ascii DecimalString.
From Stdlib Require DecimalN DecimalPos.
Import ListNotations.

Set Warnings "-register-all".

(* ================================================================= *)
(** * Platform fragment *)
(* ================================================================= *)

Module JS.

Local Open Scope N_scope.

(** ** Strings

    An ECMAScript string is a finite sequence of 16-bit code units.  Every
    function below is total on [list N]; a value of 65536 or more is never
    produced from well-formed input and is treated as an ordinary
    character. *)

Definition code_unit := N.
Definition jsstring := list code_unit.

(** [str] reads an ASCII literal of the source as a [jsstring]. *)
Definition str (s : string) : jsstring :=
  List.map N_of_ascii (list_ascii_of_string s).

(** The same for a literal that holds quotation marks, written with
    apostrophes in this file: every apostrophe stands for a quotation
    mark. *)
Definition quoted (s : string) : jsstring :=
  List.map (fun c => if c =? 39 then 34 else c) (str s).

Definition is_empty (s : jsstring) : bool :=
  match s with [] => true | _ :: _ => false end.

(** Decimal rendering of a non-negative integer, as in a template literal. *)
Definition N_to_jsstring (n : N) : jsstring :=
  str (NilZero.string_of_uint (N.to_uint n)).

(** [WhiteSpace] and [LineTerminator] of ECMA-262: the code units removed
    by [trim] and skipped by [parseInt] and by the string-to-number
    conversion. *)
Definition isWhiteSpace (c : code_unit) : bool :=
  match c with
  | 9 | 10 | 11 | 12 | 13 | 32 | 160 | 5760
  | 8232 | 8233 | 8239 | 8287 | 12288 | 65279 => true
  | _ => (8192 <=? c) && (c <=? 8202)
  end.

Fixpoint trimStart (s : jsstring) : jsstring :=
  match s with
  | [] => []
  | c :: r => if isWhiteSpace c then trimStart r else s
  end.

(** The rest of [s] after the code unit [c], when [s] starts with it. *)
Definition starts_with (c : code_unit) (s : jsstring) : option jsstring :=
  match s with
  | [] => None
  | x :: r => if x =? c then Some r else None
  end.

(** An optional sign: whether it is a minus, and the rest. *)
Definition read_sign (s : jsstring) : bool * jsstring :=
  match starts_with 45 s with
  | Some r => (true, r)
  | None =>
      match starts_with 43 s with
      | Some r => (false, r)
      | None => (false, s)
      end
  end.

Definition trimEnd (s : jsstring) : jsstring := rev (trimStart (rev s)).

(** [String.prototype.trim]. *)
Definition trim (s : jsstring) : jsstring := trimEnd (trimStart s).

(** ** Numbers

    The only Number values the form holds are the initial [10] and the
    results of [parseInt]: [NaN], an integer, or an infinity.  A finite
    Number is modelled by its mathematical value, an infinity by its sign.
    The two zeros are one value: they compare equal, both are falsy, and
    the program never divides.  The integers that [parseInt] returns are
    doubles: see [nearest_double]. *)

Inductive number : Type :=
| NaN
| Num (z : Z)
| Inf (negative : bool).

(** [ToBoolean] on a Number: [NaN] and zero are falsy. *)
Definition number_truthy (n : number) : bool :=
  match n with
  | NaN => false
  | Num z => negb (z =? 0)%Z
  | Inf _ => true
  end.

(** [a < b] and [a > b] on Numbers: every comparison with [NaN] is false,
    and the infinities lie below and above every other Number. *)
Definition number_lt (a b : number) : bool :=
  match a, b with
  | Num x, Num y => (x <? y)%Z
  | Num _, Inf negative => negb negative
  | Inf negative, Num _ => negative
  | Inf x, Inf y => x && negb y
  | _, _ => false
  end.

Definition number_gt (a b : number) : bool := number_lt b a.

(** Value of a code unit as a digit, for radices up to 36. *)
Definition digit_value (c : code_unit) : option N :=
  if (48 <=? c) && (c <=? 57) then Some (c - 48)
  else if (97 <=? c) && (c <=? 122) then Some (c - 87)
  else if (65 <=? c) && (c <=? 90) then Some (c - 55)
  else None.

Definition digit_in_radix (R : N) (c : code_unit) : option N :=
  match digit_value c with
  | Some d => if d <? R then Some d else None
  | None => None
  end.

(** The longest prefix of radix-[R] digits, read as an integer; [acc] is
    [None] until a first digit has been seen. *)
Fixpoint leading_digits (R : N) (s : jsstring) (acc : option N) : option N :=
  match s with
  | [] => acc
  | c :: r =>
      match digit_in_radix R c with
      | Some d =>
          leading_digits R r
            (Some (match acc with Some a => a * R + d | None => d end))
      | None => acc
      end
  end.

(** Radix 16 after a [0x] or [0X] prefix, which is removed; radix 10
    otherwise. *)
Definition read_radix (s : jsstring) : N * jsstring :=
  match starts_with 48 s with
  | Some (p :: r) => if (p =? 120) || (p =? 88) then (16, r) else (10, s)
  | _ => (10, s)
  end.

(** The double nearest to a non-negative integer, as an integer, or
    [None] when the integer rounds to an infinity.  Below 2^53 every
    integer is a double.  From there on a double is a significand [q] of
    53 bits times a power of two [2^e]: the bits below [2^e] are rounded
    off, to the nearest significand and to the even one on a tie, and a
    result of 2^1024 or more is beyond the largest double. *)
Definition nearest_double (m : N) : option N :=
  if m <? 9007199254740992 then Some m
  else
    let e := N.log2 m - 52 in
    let q := m / 2 ^ e in
    let r := m mod 2 ^ e in
    let half := 2 ^ (e - 1) in
    let q' := if (half <? r) || ((r =? half) && N.odd q) then q + 1 else q in
    let v := q' * 2 ^ e in
    if 1024 <=? N.log2 v then None else Some v.

(** The Number value of a sign and a magnitude. *)
Definition to_Number (neg : bool) (m : N) : number :=
  match nearest_double m with
  | Some v => Num (if neg then - Z.of_N v else Z.of_N v)
  | None => Inf neg
  end.

(** [parseInt(string)] with no radix argument (ECMA-262, 19.2.5): leading
    white space is skipped, a sign is read, then the prefix, and the
    longest run of digits is the result, as a Number; [NaN] when that run
    is empty.  The result is the double nearest to the integer that the
    digits write: the licence of the standard to read the digits after
    the twentieth as zeros is not taken. *)
Definition parseInt (input : jsstring) : number :=
  let '(neg, S1) := read_sign (trimStart input) in
  let '(R, S2) := read_radix S1 in
  match leading_digits R S2 None with
  | None => NaN
  | Some m => to_Number neg m
  end.

(** ** The regular expression of the program

    [/https:\/\/docs\.google\.com\/spreadsheets\/d\/[a-zA-Z0-9-_]+/], no
    flags.  The class holds the letters, the digits, the hyphen and the
    underscore: after the range [0-9] the hyphen is a literal. *)

Definition sheetUrlPrefix : jsstring :=
  Eval cbv in str "https://docs.google.com/spreadsheets/d/".

Definition isIdChar (c : code_unit) : bool :=
  ((97 <=? c) && (c <=? 122)) || ((65 <=? c) && (c <=? 90))
  || ((48 <=? c) && (c <=? 57)) || (c =? 45) || (c =? 95).

(** [strip_prefix p s] is the rest of [s] after [p], when [s] starts
    with [p]. *)
Fixpoint strip_prefix (p s : jsstring) : option jsstring :=
  match p, s with
  | [], _ => Some s
  | _ :: _, [] => None
  | a :: p', b :: s' => if a =? b then strip_prefix p' s' else None
  end.

Fixpoint take_while (f : code_unit -> bool) (s : jsstring) : jsstring :=
  match s with
  | [] => []
  | c :: r => if f c then c :: take_while f r else []
  end.

(** An attempt to match at the start of [s]: the literal prefix, then the
    greedy run of class characters, which must not be empty. *)
Definition match_here (s : jsstring) : option jsstring :=
  match strip_prefix sheetUrlPrefix s with
  | None => None
  | Some rest =>
      match take_while isIdChar rest with
      | [] => None
      | id => Some (sheetUrlPrefix ++ id)
      end
  end.

(** [s.match(re)] for the non-global expression above: the attempts go
    from left to right, and the result is element 0 of the match array, or
    [None] for [null]. *)
Fixpoint regex_match (s : jsstring) : option jsstring :=
  match match_here s with
  | Some m => Some m
  | None =>
      match s with
      | [] => None
      | _ :: r => regex_match r
      end
  end.

(** ** Abrupt completions

    What a [throw] carries as far as the program can observe it: the
    engine's [SyntaxError] and [TypeError] (their messages are engine
    defined and never read), and [new Error(message)]. *)

Inductive exn : Type :=
| SyntaxErrorExn
| TypeErrorExn
| ErrorExn (message : jsstring).

Inductive completion (A : Type) : Type :=
| Normal (a : A)
| Throw (e : exn).

Arguments Normal {A} a.
Arguments Throw {A} e.

Definition bind {A B : Type} (c : completion A) (k : A -> completion B)
  : completion B :=
  match c with
  | Normal a => k a
  | Throw e => Throw e
  end.

Notation "x <- c ;; k" := (bind c (fun x => k))
  (at level 61, c at next level, right associativity).

(** ** JSON values

    A number keeps the decimal its literal denotes,
    [(-1)^neg * mant * 10^exp10]; an object keeps its members in source
    order, duplicates included (a read returns the last one, as
    [JSON.parse] overwrites). *)

Record decimal : Type := Decimal {
  dec_neg : bool;
  dec_mant : N;
  dec_exp : Z
}.

Inductive jsvalue : Type :=
| JNull
| JBool (b : bool)
| JNumber (d : decimal)
| JString (s : jsstring)
| JArray (elements : list jsvalue)
| JObject (members : list (jsstring * jsvalue)).

Fixpoint jsstring_eqb (a b : jsstring) : bool :=
  match a, b with
  | [], [] => true
  | x :: a', y :: b' => (x =? y) && jsstring_eqb a' b'
  | _, _ => false
  end.

(** The value of own property [k], or [None] for [undefined]. *)
Fixpoint get_own (k : jsstring) (ms : list (jsstring * jsvalue))
  : option jsvalue :=
  match ms with
  | [] => None
  | (k', v) :: r =>
      match get_own k r with
      | Some w => Some w
      | None => if jsstring_eqb k k' then Some v else None
      end
  end.

(** ** [JSON.parse]

    The grammar of ECMA-404 as ECMA-262 25.5.1 applies it: white space is
    tab, line feed, carriage return and space; a string holds any code
    unit from U+0020 on except the quote and the backslash, or an escape;
    a number has no leading zeros, no leading plus and no bare dot. *)

Definition isJsonWhiteSpace (c : code_unit) : bool :=
  (c =? 9) || (c =? 10) || (c =? 13) || (c =? 32).

Fixpoint skip_ws (s : jsstring) : jsstring :=
  match s with
  | [] => []
  | c :: r => if isJsonWhiteSpace c then skip_ws r else s
  end.

Definition isDigit (c : code_unit) : bool := (48 <=? c) && (c <=? 57).

(** The longest prefix of decimal digits, and the rest. *)
Fixpoint span_digits (s : jsstring) : jsstring * jsstring :=
  match s with
  | [] => ([], [])
  | c :: r =>
      if isDigit c
      then let '(ds, rest) := span_digits r in (c :: ds, rest)
      else ([], s)
  end.

Definition digits_value (ds : jsstring) : N :=
  fold_left (fun a c => a * 10 + (c - 48)) ds 0.

(** [ExponentPart] without its [e]: an optional sign and at least one
    digit. *)
Definition scan_exponent (s : jsstring) : option (Z * jsstring) :=
  let '(neg, s1) := read_sign s in
  match span_digits s1 with
  | ([], _) => None
  | (ds, rest) =>
      let e := Z.of_N (digits_value ds) in
      Some (if neg : bool then (- e)%Z else e, rest)
  end.

(** An optional exponent: absent, it counts as 0; started and malformed,
    it is an error. *)
Definition scan_opt_exponent (s : jsstring) : option (Z * jsstring) :=
  match s with
  | c :: r => if (c =? 101) || (c =? 69) then scan_exponent r
              else Some (0%Z, s)
  | [] => Some (0%Z, s)
  end.

(** An optional minus sign. *)
Definition read_minus (s : jsstring) : bool * jsstring :=
  match starts_with 45 s with
  | Some r => (true, r)
  | None => (false, s)
  end.

(** The integer part: a single 0, or digits that start with 1 to 9. *)
Definition scan_int (s : jsstring) : option (jsstring * jsstring) :=
  match s with
  | [] => None
  | c :: r =>
      if c =? 48 then Some ([c], r)
      else if isDigit c then Some (span_digits s)
      else None
  end.

(** The fraction: absent, or a dot and at least one digit. *)
Definition scan_frac (s : jsstring) : option (jsstring * jsstring) :=
  match starts_with 46 s with
  | Some r =>
      match span_digits r with
      | ([], _) => None
      | (fds, rest) => Some (fds, rest)
      end
  | None => Some ([], s)
  end.

(** A JSON number at the start of [s]. *)
Definition scan_number (s : jsstring) : option (decimal * jsstring) :=
  let '(neg, s1) := read_minus s in
  match scan_int s1 with
  | None => None
  | Some (ids, s2) =>
      match scan_frac s2 with
      | None => None
      | Some (fds, s3) =>
          match scan_opt_exponent s3 with
          | None => None
          | Some (e, s4) =>
              Some (Decimal neg (digits_value (ids ++ fds))
                      (e - Z.of_nat (List.length fds)), s4)
          end
      end
  end.

Definition hex_value (c : code_unit) : option N := digit_in_radix 16 c.

Definition hex4 (a b c d : code_unit) : option code_unit :=
  match hex_value a, hex_value b, hex_value c, hex_value d with
  | Some x, Some y, Some z, Some w => Some (((x * 16 + y) * 16 + z) * 16 + w)
  | _, _, _, _ => None
  end.

(** The code unit a two-character escape stands for. *)
Definition simple_escape (c : code_unit) : option code_unit :=
  if c =? 34 then Some 34          (* quotation mark *)
  else if c =? 92 then Some 92     (* reverse solidus *)
  else if c =? 47 then Some 47     (* solidus *)
  else if c =? 98 then Some 8      (* b: backspace *)
  else if c =? 102 then Some 12    (* f: form feed *)
  else if c =? 110 then Some 10    (* n: line feed *)
  else if c =? 114 then Some 13    (* r: carriage return *)
  else if c =? 116 then Some 9     (* t: tab *)
  else None.

(** The characters of a string after its opening quote, up to and
    including the closing quote. *)
Fixpoint scan_string (s : jsstring) : option (jsstring * jsstring) :=
  match s with
  | [] => None
  | c :: r =>
      if c =? 34 then Some ([], r)
      else if c =? 92 then
        match r with
        | [] => None
        | e :: r1 =>
            if e =? 117 then
              match r1 with
              | a :: b :: c' :: d :: r2 =>
                  match hex4 a b c' d with
                  | None => None
                  | Some u =>
                      match scan_string r2 with
                      | None => None
                      | Some (cs, rest) => Some (u :: cs, rest)
                      end
                  end
              | _ => None
              end
            else
              match simple_escape e with
              | None => None
              | Some u =>
                  match scan_string r1 with
                  | None => None
                  | Some (cs, rest) => Some (u :: cs, rest)
                  end
              end
        end
      else if c <? 32 then None
      else
        match scan_string r with
        | None => None
        | Some (cs, rest) => Some (c :: cs, rest)
        end
  end.

Inductive parse_result (A : Type) : Type :=
| ParseOk (v : A) (rest : jsstring)
| ParseError
| OutOfFuel.

Arguments ParseOk {A} v rest.
Arguments ParseError {A}.
Arguments OutOfFuel {A}.

Definition lit_true : jsstring := Eval cbv in str "true".
Definition lit_false : jsstring := Eval cbv in str "false".
Definition lit_null : jsstring := Eval cbv in str "null".

(** A value that is neither an array nor an object, at the start of [s]
    (no leading white space). *)
Definition parse_scalar (s : jsstring) : parse_result jsvalue :=
  match s with
  | [] => ParseError
  | c :: r =>
      if c =? 34 then
        match scan_string r with
        | Some (cs, rest) => ParseOk (JString cs) rest
        | None => ParseError
        end
      else
        match strip_prefix lit_true s with
        | Some rest => ParseOk (JBool true) rest
        | None =>
        match strip_prefix lit_false s with
        | Some rest => ParseOk (JBool false) rest
        | None =>
        match strip_prefix lit_null s with
        | Some rest => ParseOk JNull rest
        | None =>
        match scan_number s with
        | Some (d, rest) => ParseOk (JNumber d) rest
        | None => ParseError
        end end end end
  end.

(** Recursive descent; [fuel] bounds the number of nested calls.
    [parse_elements] reads [value (, value)* ]] and [parse_members] reads
    [string : value (, string : value)* }]. *)
Fixpoint parse_value (fuel : nat) (s : jsstring) {struct fuel}
  : parse_result jsvalue :=
  match fuel with
  | O => OutOfFuel
  | S fuel' =>
      match skip_ws s with
      | [] => ParseError
      | c :: r =>
          if c =? 91 then
            match starts_with 93 (skip_ws r) with
            | Some r' => ParseOk (JArray []) r'
            | None =>
                match parse_elements fuel' r with
                | ParseOk vs r' => ParseOk (JArray vs) r'
                | ParseError => ParseError
                | OutOfFuel => OutOfFuel
                end
            end
          else if c =? 123 then
            match starts_with 125 (skip_ws r) with
            | Some r' => ParseOk (JObject []) r'
            | None =>
                match parse_members fuel' r with
                | ParseOk ms r' => ParseOk (JObject ms) r'
                | ParseError => ParseError
                | OutOfFuel => OutOfFuel
                end
            end
          else parse_scalar (c :: r)
      end
  end

with parse_elements (fuel : nat) (s : jsstring) {struct fuel}
  : parse_result (list jsvalue) :=
  match fuel with
  | O => OutOfFuel
  | S fuel' =>
      match parse_value fuel' s with
      | ParseError => ParseError
      | OutOfFuel => OutOfFuel
      | ParseOk v r =>
          match skip_ws r with
          | c :: r' =>
              if c =? 93 then ParseOk [v] r'
              else if c =? 44 then
                match parse_elements fuel' r' with
                | ParseOk vs r'' => ParseOk (v :: vs) r''
                | ParseError => ParseError
                | OutOfFuel => OutOfFuel
                end
              else ParseError
          | [] => ParseError
          end
      end
  end

with parse_members (fuel : nat) (s : jsstring) {struct fuel}
  : parse_result (list (jsstring * jsvalue)) :=
  match fuel with
  | O => OutOfFuel
  | S fuel' =>
      match starts_with 34 (skip_ws s) with
      | Some r =>
          match scan_string r with
          | None => ParseError
          | Some (k, r1) =>
              match starts_with 58 (skip_ws r1) with
              | Some r2 =>
                  match parse_value fuel' r2 with
                  | ParseError => ParseError
                  | OutOfFuel => OutOfFuel
                  | ParseOk v r3 =>
                      match skip_ws r3 with
                      | c :: r4 =>
                          if c =? 125 then ParseOk [(k, v)] r4
                          else if c =? 44 then
                            match parse_members fuel' r4 with
                            | ParseOk ms r5 => ParseOk ((k, v) :: ms) r5
                            | ParseError => ParseError
                            | OutOfFuel => OutOfFuel
                            end
                          else ParseError
                      | [] => ParseError
                      end
                  end
              | None => ParseError
              end
          end
      | None => ParseError
      end
  end.

(** Fuel that always suffices for a text of the given length (see
    [parse_value_fuel] below). *)
Definition parse_fuel (text : jsstring) : nat := 2 * List.length text + 2.

(** [JSON.parse(text)]: one value, then nothing but white space.  The
    result is the parsed value or the [SyntaxError] that [JSON.parse]
    throws. *)
Definition JSON_parse (text : jsstring) : completion jsvalue :=
  match parse_value (parse_fuel text) text with
  | ParseOk v rest =>
      match skip_ws rest with
      | [] => Normal v
      | _ :: _ => Throw SyntaxErrorExn
      end
  | ParseError => Throw SyntaxErrorExn
  | OutOfFuel => Throw SyntaxErrorExn
  end.

(** ** Coercions and property reads on a parsed value *)

(** Whether the double nearest to the decimal is zero: the mantissa is 0,
    or the value is at most 2^-1075, half the smallest positive double. *)
Definition rounds_to_zero (d : decimal) : bool :=
  (dec_mant d =? 0)
  || ((dec_exp d <? 0)%Z
      && (Z.of_N (dec_mant d) * 2 ^ 1075 <=? 10 ^ (- dec_exp d))%Z).

(** What a comparison with 0 can observe of a Number. *)
Inductive sign : Type := Negative | Zero | Positive | NotANumber.

Definition signed (neg zero : bool) : sign :=
  if zero then Zero else if neg then Negative else Positive.

Definition decimal_sign (d : decimal) : sign :=
  signed (dec_neg d) (rounds_to_zero d).

(** [ToBoolean]. *)
Definition truthy (v : jsvalue) : bool :=
  match v with
  | JNull => false
  | JBool b => b
  | JNumber d => negb (rounds_to_zero d)
  | JString s => negb (is_empty s)
  | JArray _ => true
  | JObject _ => true
  end.

Definition truthy_opt (v : option jsvalue) : bool :=
  match v with
  | None => false
  | Some w => truthy w
  end.

(** The value of a non-empty string made of radix-[R] digits only. *)
Fixpoint radix_digits (R : N) (s : jsstring) (acc : N) : option N :=
  match s with
  | [] => Some acc
  | c :: r =>
      match digit_in_radix R c with
      | Some d => radix_digits R r (acc * R + d)
      | None => None
      end
  end.

Definition radix_value (R : N) (s : jsstring) : option N :=
  match s with
  | [] => None
  | _ :: _ => radix_digits R s 0
  end.

(** [NonDecimalIntegerLiteral]: [0x], [0o] or [0b] and digits. *)
Definition non_decimal_literal (t : jsstring) : option N :=
  match starts_with 48 t with
  | Some (p :: r) =>
      if (p =? 120) || (p =? 88) then radix_value 16 r
      else if (p =? 111) || (p =? 79) then radix_value 8 r
      else if (p =? 98) || (p =? 66) then radix_value 2 r
      else None
  | _ => None
  end.

Definition lit_Infinity : jsstring := Eval cbv in str "Infinity".

(** [StrDecimalLiteral]: a sign, then [Infinity] or digits with an
    optional fraction and exponent; anything else is [NaN]. *)
Definition str_decimal_sign (t : jsstring) : sign :=
  let '(neg, u) := read_sign t in
  if jsstring_eqb u lit_Infinity then signed neg false
  else
    let '(ids, r1) := span_digits u in
    let '(fds, r2) :=
      match starts_with 46 r1 with
      | Some r => span_digits r
      | None => ([], r1)
      end in
    if is_empty ids && is_empty fds then NotANumber
    else
      match scan_opt_exponent r2 with
      | Some (e, []) =>
          signed neg
            (rounds_to_zero
               (Decimal neg (digits_value (ids ++ fds))
                  (e - Z.of_nat (List.length fds))))
      | _ => NotANumber
      end.

(** The sign of [StringToNumber(s)] (ECMA-262, 7.1.4.1.1): white space is
    trimmed and the empty string is [+0]. *)
Definition string_sign (s : jsstring) : sign :=
  let t := trim s in
  if is_empty t then Zero
  else
    match non_decimal_literal t with
    | Some v => signed false (v =? 0)
    | None => str_decimal_sign t
    end.

Definition key_toString : jsstring := Eval cbv in str "toString".
Definition key_length : jsstring := Eval cbv in str "length".
Definition key_0 : jsstring := Eval cbv in str "0".

Definition has_own (k : jsstring) (ms : list (jsstring * jsvalue)) : bool :=
  match get_own k ms with
  | Some _ => true
  | None => false
  end.

(** Whether [ToString(v)] throws.  A parsed object inherits a callable
    [toString] unless it has an own member of that name, which is never
    callable; then neither [toString] nor [valueOf] produces a primitive
    and the conversion ends in a [TypeError].  An array is joined, so it
    throws when one of its elements does. *)
Fixpoint to_string_throws (v : jsvalue) : bool :=
  match v with
  | JObject ms => has_own key_toString ms
  | JArray es => existsb to_string_throws es
  | _ => false
  end.

(** The sign of [ToNumber(ToString(v))].  A Number prints to a string
    that reads back as the same Number; an object prints as
    [[object Object]]; an array prints its elements separated by commas,
    [null] as the empty string, so that two elements or more never read as
    a number. *)
Fixpoint string_form_sign (v : jsvalue) : completion sign :=
  match v with
  | JNull => Normal NotANumber
  | JBool _ => Normal NotANumber
  | JNumber d => Normal (decimal_sign d)
  | JString s => Normal (string_sign s)
  | JObject ms =>
      if has_own key_toString ms then Throw TypeErrorExn
      else Normal NotANumber
  | JArray es =>
      match es with
      | [] => Normal Zero
      | [x] =>
          match x with
          | JNull => Normal Zero
          | _ => string_form_sign x
          end
      | _ :: _ :: _ =>
          if existsb to_string_throws es then Throw TypeErrorExn
          else Normal NotANumber
      end
  end.

(** The sign of [ToNumber(v)]; an object or array goes through its
    string form, [valueOf] returning the object itself. *)
Definition to_number_sign (v : jsvalue) : completion sign :=
  match v with
  | JNull => Normal Zero
  | JBool b => Normal (if b then Positive else Zero)
  | _ => string_form_sign v
  end.

(** [v > 0], where [None] is [undefined]. *)
Definition gt_zero (v : option jsvalue) : completion bool :=
  match v with
  | None => Normal false
  | Some w =>
      s <- to_number_sign w ;;
      Normal (match s with Positive => true | _ => false end)
  end.

(** [v.length > 0].  An array and a string have their length; an object
    has the own member of that name, if any; a Boolean or a Number has no
    such property. *)
Definition length_gt_zero (v : jsvalue) : completion bool :=
  match v with
  | JNull => Throw TypeErrorExn
  | JArray es => Normal (negb (match es with [] => true | _ => false end))
  | JString s => Normal (negb (is_empty s))
  | JObject ms => gt_zero (get_own key_length ms)
  | JBool _ => Normal false
  | JNumber _ => Normal false
  end.

(** [v[0]], [None] for [undefined]. *)
Definition index_zero (v : jsvalue) : completion (option jsvalue) :=
  match v with
  | JNull => Throw TypeErrorExn
  | JArray es => Normal (hd_error es)
  | JString s =>
      Normal (match s with [] => None | c :: _ => Some (JString [c]) end)
  | JObject ms => Normal (get_own key_0 ms)
  | JBool _ => Normal None
  | JNumber _ => Normal None
  end.

(** [v[k]] for a name [k] that no built-in prototype defines and that is
    neither an index nor [length]: only an object can have it. *)
Definition get_member (k : jsstring) (v : option jsvalue)
  : completion (option jsvalue) :=
  match v with
  | None => Throw TypeErrorExn
  | Some JNull => Throw TypeErrorExn
  | Some (JObject ms) => Normal (get_own k ms)
  | Some _ => Normal None
  end.

(** [v.match(re)] with the expression of the program: only a string has
    a callable [match]. *)
Definition String_match (v : option jsvalue) : completion (option jsstring) :=
  match v with
  | Some (JString s) => Normal (regex_match s)
  | _ => Throw TypeErrorExn
  end.

End JS.

(* ================================================================= *)
(** * The component *)
(* ================================================================= *)

Module App.

Import JS.

Local Open Scope N_scope.

(** ** State (lines 4-20) *)

Record FormData : Type := {
  searchTerms : jsstring;
  location : jsstring;
  numberOfPlaces : number
}.

(** [keyof FormData]. *)
Inductive field : Type := SearchTerms | Location | NumberOfPlaces.

(** [Partial<FormData>] as the program uses it: per field, an error
    message or [undefined]. *)
Record PartialFormData : Type := {
  error_searchTerms : option jsstring;
  error_location : option jsstring;
  error_numberOfPlaces : option jsstring
}.

Definition no_errors : PartialFormData :=
  {| error_searchTerms := None;
     error_location := None;
     error_numberOfPlaces := None |}.

(** [errors[f]]. *)
Definition error_of (e : PartialFormData) (f : field) : option jsstring :=
  match f with
  | SearchTerms => error_searchTerms e
  | Location => error_location e
  | NumberOfPlaces => error_numberOfPlaces e
  end.

(** [{...e, [f]: v}]. *)
Definition with_error (e : PartialFormData) (f : field) (v : option jsstring)
  : PartialFormData :=
  match f with
  | SearchTerms =>
      {| error_searchTerms := v;
         error_location := error_location e;
         error_numberOfPlaces := error_numberOfPlaces e |}
  | Location =>
      {| error_searchTerms := error_searchTerms e;
         error_location := v;
         error_numberOfPlaces := error_numberOfPlaces e |}
  | NumberOfPlaces =>
      {| error_searchTerms := error_searchTerms e;
         error_location := error_location e;
         error_numberOfPlaces := v |}
  end.

(** Truthiness of [errors[f]]: a non-empty message. *)
Definition has_error (e : PartialFormData) (f : field) : bool :=
  match error_of e f with
  | Some m => negb (is_empty m)
  | None => false
  end.

(** [Object.keys(e).length] for an object built by assigning messages
    only. *)
Definition key_count (e : PartialFormData) : nat :=
  List.length
    (List.filter
       (fun f => match error_of e f with Some _ => true | None => false end)
       [SearchTerms; Location; NumberOfPlaces]).

(** The five [useState] cells of the component. *)
Record State : Type := {
  formData : FormData;
  errors : PartialFormData;
  isSubmitting : bool;
  googleSheetUrl : jsstring;
  showSuccess : bool
}.

Definition initialState : State :=
  {| formData :=
       {| searchTerms := []; location := []; numberOfPlaces := Num 10 |};
     errors := no_errors;
     isSubmitting := false;
     googleSheetUrl := [];
     showSuccess := false |}.

Definition setFormData (f : FormData -> FormData) (st : State) : State :=
  {| formData := f (formData st);
     errors := errors st;
     isSubmitting := isSubmitting st;
     googleSheetUrl := googleSheetUrl st;
     showSuccess := showSuccess st |}.

Definition setErrors (f : PartialFormData -> PartialFormData) (st : State)
  : State :=
  {| formData := formData st;
     errors := f (errors st);
     isSubmitting := isSubmitting st;
     googleSheetUrl := googleSheetUrl st;
     showSuccess := showSuccess st |}.

Definition setIsSubmitting (b : bool) (st : State) : State :=
  {| formData := formData st;
     errors := errors st;
     isSubmitting := b;
     googleSheetUrl := googleSheetUrl st;
     showSuccess := showSuccess st |}.

Definition setGoogleSheetUrl (u : jsstring) (st : State) : State :=
  {| formData := formData st;
     errors := errors st;
     isSubmitting := isSubmitting st;
     googleSheetUrl := u;
     showSuccess := showSuccess st |}.

Definition setShowSuccess (b : bool) (st : State) : State :=
  {| formData := formData st;
     errors := errors st;
     isSubmitting := isSubmitting st;
     googleSheetUrl := googleSheetUrl st;
     showSuccess := b |}.

(** ** What the view reads (lines 145, 194-204, 278) *)

Definition successShown (st : State) : bool :=
  showSuccess st && negb (is_empty (googleSheetUrl st)).

Definition errorShown (st : State) (f : field) : bool :=
  has_error (errors st) f.

Definition submitDisabled (st : State) : bool := isSubmitting st.

(** ** [handleInputChange] (lines 22-41)

    The three call sites pass a field together with a value of the type
    of that field; [edit] is such a pair. *)

Inductive edit : Type :=
| EditSearchTerms (value : jsstring)
| EditLocation (value : jsstring)
| EditNumberOfPlaces (value : number).

Definition edit_field (e : edit) : field :=
  match e with
  | EditSearchTerms _ => SearchTerms
  | EditLocation _ => Location
  | EditNumberOfPlaces _ => NumberOfPlaces
  end.

(** [{...prev, [field]: value}]. *)
Definition assign (e : edit) (prev : FormData) : FormData :=
  match e with
  | EditSearchTerms v =>
      {| searchTerms := v;
         location := location prev;
         numberOfPlaces := numberOfPlaces prev |}
  | EditLocation v =>
      {| searchTerms := searchTerms prev;
         location := v;
         numberOfPlaces := numberOfPlaces prev |}
  | EditNumberOfPlaces v =>
      {| searchTerms := searchTerms prev;
         location := location prev;
         numberOfPlaces := v |}
  end.

Definition handleInputChange (e : edit) (st : State) : State :=
  let st1 := setFormData (assign e) st in
  let st2 :=
    if has_error (errors st) (edit_field e)
    then setErrors (fun prev => with_error prev (edit_field e) None) st1
    else st1 in
  if showSuccess st
  then setGoogleSheetUrl [] (setShowSuccess false st2)
  else st2.

(** [a || b] on Numbers. *)
Definition number_or (a b : number) : number :=
  if number_truthy a then a else b.

(** The [onChange] callbacks of the three inputs (lines 191, 220, 252);
    [value] is [e.target.value]. *)
Definition onChange_searchTerms (value : jsstring) : State -> State :=
  handleInputChange (EditSearchTerms value).

Definition onChange_location (value : jsstring) : State -> State :=
  handleInputChange (EditLocation value).

Definition onChange_numberOfPlaces (value : jsstring) : State -> State :=
  handleInputChange (EditNumberOfPlaces (number_or (parseInt value) (Num 0))).

(** ** [validateForm] (lines 43-60) *)

Definition msg_searchTerms : jsstring :=
  Eval cbv in str "Search terms are required".
Definition msg_location : jsstring :=
  Eval cbv in str "Location is required".
Definition msg_numberOfPlaces : jsstring :=
  Eval cbv in str "Number must be between 1 and 100".

Definition newErrors_of (fd : FormData) : PartialFormData :=
  let newErrors := no_errors in
  let newErrors :=
    if is_empty (trim (searchTerms fd))
    then with_error newErrors SearchTerms (Some msg_searchTerms)
    else newErrors in
  let newErrors :=
    if is_empty (trim (location fd))
    then with_error newErrors Location (Some msg_location)
    else newErrors in
  let newErrors :=
    if number_lt (numberOfPlaces fd) (Num 1)
       || number_gt (numberOfPlaces fd) (Num 100)
    then with_error newErrors NumberOfPlaces (Some msg_numberOfPlaces)
    else newErrors in
  newErrors.

(** The returned Boolean and the state after [setErrors(newErrors)]. *)
Definition validateForm (st : State) : bool * State :=
  let newErrors := newErrors_of (formData st) in
  (Nat.eqb (key_count newErrors) 0, setErrors (fun _ => newErrors) st).

(** ** [handleSubmit] (lines 62-126) *)

Definition webhookUrl : jsstring :=
  Eval cbv in
    str "https://salesmagicautomation.app.n8n.cloud/webhook-test/24f2c0fd-6f4f-47ec-b6ec-e25960142a04".

(** The object given to [JSON.stringify] for the request body. *)
Record Payload : Type := {
  payload_searchTerms : jsstring;
  payload_location : jsstring;
  payload_numberOfPlaces : number;
  payload_timestamp : jsstring
}.

Record Request : Type := {
  request_url : jsstring;
  request_method : jsstring;
  request_contentType : jsstring;
  request_body : Payload
}.

(** What reaches the outer [catch]: an instance of [Error] with its
    message, or any other value. *)
Inductive thrown : Type :=
| ThrownError (message : jsstring)
| ThrownOther.

(** The outcome of an awaited promise. *)
Inductive settled (A : Type) : Type :=
| Fulfilled (a : A)
| Rejected (reason : thrown).

Arguments Fulfilled {A} a.
Arguments Rejected {A} reason.

(** A response: its status, and what [await response.text()] gives. *)
Record Response : Type := {
  status : N;
  text : settled jsstring
}.

(** [response.ok]: the status is in the range 200-299. *)
Definition ok (response : Response) : bool :=
  (200 <=? status response) && (status response <=? 299).

(** The observable actions of the handler, in order. *)
Inductive effect : Type :=
| PreventDefault
| Fetch (request : Request)
| ReadText
| ConsoleLog (responseText : jsstring)
| ConsoleError (error : thrown)
| Alert (message : jsstring).

Definition mkRequest (fd : FormData) (now : jsstring) : Request :=
  {| request_url := webhookUrl;
     request_method := str "POST";
     request_contentType := str "application/json";
     request_body :=
       {| payload_searchTerms := searchTerms fd;
          payload_location := location fd;
          payload_numberOfPlaces := numberOfPlaces fd;
          payload_timestamp := now |} |}.

(** Lines 63-83, up to the first [await]; [now] is
    [new Date().toISOString()].  No [Fetch] in the result means that the
    handler has returned at line 65. *)
Definition handleSubmit_begin (now : jsstring) (st : State)
  : State * list effect :=
  let '(valid, st1) := validateForm st in
  if negb valid then (st1, [PreventDefault])
  else
    (setGoogleSheetUrl [] (setShowSuccess false (setIsSubmitting true st1)),
     [PreventDefault; Fetch (mkRequest (formData st) now)]).

Definition key_webhook : jsstring :=
  Eval cbv in str "Set Webhook Information".

(** The condition of line 93. *)
Definition has_webhook_information (responseData : jsvalue) : completion bool :=
  if negb (truthy responseData) then Normal false
  else
    nonempty <- length_gt_zero responseData ;;
    if negb (nonempty : bool) then Normal false
    else
      first <- index_zero responseData ;;
      info <- get_member key_webhook first ;;
      Normal (truthy_opt info).

Definition msg_not_found : jsstring :=
  Eval cbv in str "Google Sheet URL not found in response".
Definition msg_invalid_format : jsstring :=
  Eval cbv in str "Invalid response format".
Definition msg_no_json : jsstring :=
  Eval cbv in str "Response is not valid JSON and no Google Sheet URL found".

(** The body of the inner [try] (lines 90-105): the URL given to
    [setGoogleSheetUrl] when it completes, or what it throws.  No state is
    written before the two setters at its end. *)
Definition try_json (responseText : jsstring) : completion jsstring :=
  responseData <- JSON_parse responseText ;;
  found <- has_webhook_information responseData ;;
  if found : bool then
    first <- index_zero responseData ;;
    webhookInfo <- get_member key_webhook first ;;
    urlMatch <- String_match webhookInfo ;;
    match urlMatch with
    | Some url => Normal url
    | None => Throw (ErrorExn msg_not_found)
    end
  else Throw (ErrorExn msg_invalid_format).

(** Lines 89-116: the inner [try] and its [catch], which ignores
    [jsonError] and searches the raw text. *)
Definition extract_url (responseText : jsstring) : settled jsstring :=
  match try_json responseText with
  | Normal url => Fulfilled url
  | Throw _jsonError =>
      match regex_match responseText with
      | Some url => Fulfilled url
      | None => Rejected (ThrownError msg_no_json)
      end
  end.

Definition msg_http_error : jsstring :=
  Eval cbv in str "HTTP error! status: ".

(** The template literal of line 118. *)
Definition http_error_message (response : Response) : jsstring :=
  msg_http_error ++ N_to_jsstring (status response).

(** Lines 85-119, the outer [try] from the point where [fetch] has
    settled: the URL to display, or what is thrown to the outer [catch],
    with the actions performed on the way. *)
Definition interpret (o : settled Response) : settled jsstring * list effect :=
  match o with
  | Rejected reason => (Rejected reason, [])
  | Fulfilled response =>
      if ok response then
        match text response with
        | Rejected reason => (Rejected reason, [ReadText])
        | Fulfilled responseText =>
            (extract_url responseText, [ReadText; ConsoleLog responseText])
        end
      else (Rejected (ThrownError (http_error_message response)), [])
  end.

Definition msg_alert_prefix : jsstring :=
  Eval cbv in str "Error submitting form: ".
Definition msg_unknown : jsstring :=
  Eval cbv in str "Unknown error occurred".

(** The text given to [alert] at line 122. *)
Definition alert_text (error : thrown) : jsstring :=
  msg_alert_prefix
  ++ match error with
     | ThrownError message => message
     | ThrownOther => msg_unknown
     end.

(** Lines 85-125, run when the promise of [fetch] settles. *)
Definition handleSubmit_resume (o : settled Response) (st : State)
  : State * list effect :=
  let '(result, effs) := interpret o in
  let '(st1, effs1) :=
    match result with
    | Fulfilled url =>
        (setShowSuccess true (setGoogleSheetUrl url st), effs)
    | Rejected error =>
        (st, effs ++ [ConsoleError error; Alert (alert_text error)])
    end in
  (setIsSubmitting false st1, effs1).

(** One whole call of [handleSubmit], when nothing else happens while the
    request is in flight. *)
Definition handleSubmit (now : jsstring) (o : settled Response) (st : State)
  : State * list effect :=
  let '(st1, effs1) := handleSubmit_begin now st in
  if existsb (fun e => match e with Fetch _ => true | _ => false end) effs1
  then let '(st2, effs2) := handleSubmit_resume o st1 in (st2, effs1 ++ effs2)
  else (st1, effs1).

(** ** The page as a transition system

    The events are the callbacks of the view and the settling of a
    request; [inFlight] counts the requests issued and not yet settled. *)

Inductive event : Type :=
| ChangeSearchTerms (value : jsstring)
| ChangeLocation (value : jsstring)
| ChangeNumberOfPlaces (value : jsstring)
| Submit (now : jsstring)
| FetchSettled (o : settled Response).

Record Page : Type := {
  state : State;
  inFlight : nat
}.

Definition initialPage : Page := {| state := initialState; inFlight := 0 |}.

Definition issued (effs : list effect) : nat :=
  List.length
    (List.filter (fun e => match e with Fetch _ => true | _ => false end) effs).

(** The page after an event, or [None] when the event cannot happen (a
    settlement with no request in flight). *)
Definition step (ev : event) (p : Page) : option Page :=
  match ev with
  | ChangeSearchTerms v =>
      Some {| state := onChange_searchTerms v (state p);
              inFlight := inFlight p |}
  | ChangeLocation v =>
      Some {| state := onChange_location v (state p);
              inFlight := inFlight p |}
  | ChangeNumberOfPlaces v =>
      Some {| state := onChange_numberOfPlaces v (state p);
              inFlight := inFlight p |}
  | Submit now =>
      let '(st, effs) := handleSubmit_begin now (state p) in
      Some {| state := st; inFlight := (inFlight p + issued effs)%nat |}
  | FetchSettled o =>
      match inFlight p with
      | O => None
      | S n =>
          Some {| state := fst (handleSubmit_resume o (state p));
                  inFlight := n |}
      end
  end.

Inductive reachable : Page -> Prop :=
| reachable_initial : reachable initialPage
| reachable_step : forall p ev p',
    reachable p -> step ev p = Some p' -> reachable p'.

End App.

(* ================================================================= *)
(** * Vocabulary of the properties *)
(* ================================================================= *)

Import JS.
Import App.

(** ** Further platform functions: what the component writes

    [Number::toString] on the Numbers of the model, as used where a
    Number is rendered ([value={formData.numberOfPlaces}],
    [JSON.stringify]).  An integer of magnitude up to 2^53 is printed as
    its decimal digits, with a minus sign when negative.  Beyond 2^53 the
    platform prints the shortest digits that read back as the same
    double, in exponent notation from 10^21 on: that part is left out,
    and the result is [None] there. *)
Definition number_to_string (n : number) : option jsstring :=
  match n with
  | NaN => Some (str "NaN")
  | Inf negative => Some (if negative then str "-Infinity" else str "Infinity")
  | Num z =>
      if (Z.abs z <=? 9007199254740992)%Z then
        Some (if (z <? 0)%Z then 45%N :: N_to_jsstring (Z.abs_N z)
              else N_to_jsstring (Z.abs_N z))
      else None
  end.

(** A string of 16-bit code units. *)
Definition well_formed (s : jsstring) : Prop :=
  Forall (fun c => (c < 65536)%N) s.

Definition isHighSurrogate (c : code_unit) : bool :=
  ((55296 <=? c) && (c <=? 56319))%N.

Definition isLowSurrogate (c : code_unit) : bool :=
  ((56320 <=? c) && (c <=? 57343))%N.

Definition hex_digit (d : N) : code_unit :=
  if (d <? 10)%N then (48 + d)%N else (87 + d)%N.

(** [UnicodeEscape]: a backslash, [u] and four lowercase hexadecimal
    digits. *)
Definition UnicodeEscape (c : code_unit) : jsstring :=
  [92; 117;
   hex_digit (c / 4096); hex_digit ((c / 256) mod 16);
   hex_digit ((c / 16) mod 16); hex_digit (c mod 16)]%N.

(** What [QuoteJSONString] writes for one code unit that is not half of a
    surrogate pair: a two-character escape for the seven code units of
    its table, a [UnicodeEscape] for the other control characters and for
    a lone surrogate, and the code unit itself otherwise. *)
Definition quote_unit (c : code_unit) : jsstring :=
  (if c =? 8 then [92; 98]
   else if c =? 9 then [92; 116]
   else if c =? 10 then [92; 110]
   else if c =? 12 then [92; 102]
   else if c =? 13 then [92; 114]
   else if c =? 34 then [92; 34]
   else if c =? 92 then [92; 92]
   else if (c <? 32) || isHighSurrogate c || isLowSurrogate c
        then UnicodeEscape c
   else [c])%N.

(** The characters between the quotes: a high surrogate followed by a low
    one is a code point of its own and is copied. *)
Fixpoint quote_units (s : jsstring) : jsstring :=
  match s with
  | [] => []
  | c :: r =>
      match r with
      | d :: r' =>
          if isHighSurrogate c && isLowSurrogate d
          then c :: d :: quote_units r'
          else quote_unit c ++ quote_units r
      | [] => quote_unit c
      end
  end.

(** [QuoteJSONString] (ECMA-262, 25.5.2.3). *)
Definition QuoteJSONString (s : jsstring) : jsstring :=
  34%N :: quote_units s ++ [34%N].

(** [JSON.stringify] of a Number: [null] when it is not finite, and
    [Number::toString] otherwise, where that is modelled. *)
Definition stringify_number (n : number) : option jsstring :=
  match n with
  | NaN => Some (str "null")
  | Inf _ => Some (str "null")
  | Num _ => number_to_string n
  end.

(** The [body] of the request (lines 77-82): [JSON.stringify] of the
    object literal, its four members in the order of the source and no
    white space; [None] where the text of the number is not modelled. *)
Definition JSON_stringify_body (b : Payload) : option jsstring :=
  match stringify_number (payload_numberOfPlaces b) with
  | Some digits =>
      Some (quoted "{'searchTerms':" ++ QuoteJSONString (payload_searchTerms b)
            ++ quoted ",'location':" ++ QuoteJSONString (payload_location b)
            ++ quoted ",'numberOfPlaces':" ++ digits
            ++ quoted ",'timestamp':" ++ QuoteJSONString (payload_timestamp b)
            ++ str "}")
  | None => None
  end.

(** The value [JSON.parse] gives back for a Number written by
    [JSON.stringify]. *)
Definition json_of_number (n : number) : jsvalue :=
  match n with
  | NaN => JNull
  | Inf _ => JNull
  | Num z => JNumber (Decimal (z <? 0)%Z (Z.abs_N z) 0)
  end.

(** The parsed body of a request. *)
Definition json_of_body (b : Payload) : jsvalue :=
  JObject
    [(str "searchTerms", JString (payload_searchTerms b));
     (str "location", JString (payload_location b));
     (str "numberOfPlaces", json_of_number (payload_numberOfPlaces b));
     (str "timestamp", JString (payload_timestamp b))].

(** ** Further vocabulary *)

(** The element that the test of line 93 reads as [responseData[0]] when
    [responseData.length > 0] holds: the first element of a non-empty
    array, the first character of a non-empty string, or the member [0]
    of an object whose member [length] is greater than 0. *)
Definition first_element (v : jsvalue) : option jsvalue :=
  match v with
  | JArray (x :: _) => Some x
  | JString (c :: _) => Some (JString [c])
  | JObject ms =>
      match gt_zero (get_own key_length ms) with
      | Normal true => get_own key_0 ms
      | _ => None
      end
  | _ => None
  end.

(** The page as the user can drive it: the submit button is disabled
    while [isSubmitting] is set (line 278), and a disabled default button
    also blocks the submission of the form from the keyboard. *)
Definition step_ui (ev : event) (p : Page) : option Page :=
  match ev with
  | Submit _ => if submitDisabled (state p) then None else step ev p
  | _ => step ev p
  end.

Inductive reachable_ui : Page -> Prop :=
| reachable_ui_initial : reachable_ui initialPage
| reachable_ui_step : forall p ev p',
    reachable_ui p -> step_ui ev p = Some p' -> reachable_ui p'.

(** The form after the edits made while a request is in flight. *)
Definition edited (during : list edit) (fd : FormData) : FormData :=
  fold_left (fun fd e => assign e fd) during fd.

(** What the outer [catch] can receive for a given settlement. *)
Definition caught (o : settled Response) (error : thrown) : Prop :=
  match o with
  | Rejected reason => error = reason
  | Fulfilled response =>
      if ok response then
        match text response with
        | Rejected reason => error = reason
        | Fulfilled _ => error = ThrownError msg_no_json
        end
      else error = ThrownError (http_error_message response)
  end.

(** The language of the regular expression: the literal prefix followed
    by one or more class characters. *)
Definition is_sheet_url (u : jsstring) : Prop :=
  exists id,
    u = sheetUrlPrefix ++ id /\ id <> []
    /\ Forall (fun c => isIdChar c = true) id.

(** [u] occurs in [s], as a word of that language. *)
Definition occurs_in (s u : jsstring) : Prop :=
  exists pre post, s = pre ++ u ++ post /\ is_sheet_url u.

(** [u] is the first match in [s]: it occurs, its run of class characters
    cannot be extended, and no word of the language occurs further to the
    left. *)
Definition first_match (s u : jsstring) : Prop :=
  exists pre post,
    s = pre ++ u ++ post
    /\ is_sheet_url u
    /\ (forall c post', post = c :: post' -> isIdChar c = false)
    /\ (forall pre' u' post',
           s = pre' ++ u' ++ post' -> is_sheet_url u' ->
           (List.length pre <= List.length pre')%nat).

(** The range [1, 100] of the validation contract. *)
Definition in_range (n : number) : Prop :=
  exists z, n = Num z /\ (1 <= z <= 100)%Z.

(** A field fails the validation contract. *)
Definition fails_contract (fd : FormData) (f : field) : Prop :=
  match f with
  | SearchTerms => trim (searchTerms fd) = []
  | Location => trim (location fd) = []
  | NumberOfPlaces => ~ in_range (numberOfPlaces fd)
  end.

(** One submission attempt: the call of [handleSubmit], the edits made
    while the request is in flight, and the continuation of the call when
    the request settles.  When validation fails there is no request and
    the attempt is the first part alone. *)
Definition submission (now : jsstring) (during : list edit)
    (o : settled Response) (st : State) : State * list effect :=
  let '(st1, effs1) := handleSubmit_begin now st in
  match issued effs1 with
  | O => (st1, effs1)
  | S _ =>
      let st2 := fold_left (fun s e => handleInputChange e s) during st1 in
      let '(st3, effs2) := handleSubmit_resume o st2 in
      (st3, effs1 ++ effs2)
  end.

(** How an attempt ends.  Success: the panel of line 145 shows [url] and
    nothing was alerted.  Failed: the user was alerted with [message] and
    no URL is held. *)
Definition ends_in_Success (r : State * list effect) (url : jsstring) : Prop :=
  isSubmitting (fst r) = false
  /\ showSuccess (fst r) = true
  /\ googleSheetUrl (fst r) = url
  /\ successShown (fst r) = true
  /\ (forall m, ~ In (Alert m) (snd r)).

Definition ends_in_Failed (r : State * list effect) (message : jsstring)
  : Prop :=
  isSubmitting (fst r) = false
  /\ showSuccess (fst r) = false
  /\ googleSheetUrl (fst r) = []
  /\ successShown (fst r) = false
  /\ (forall m, In (Alert m) (snd r) <-> m = message).

(** The test the source makes on a field (lines 46, 50, 54) and the
    message it records. *)
Definition invalid (fd : FormData) (f : field) : bool :=
  match f with
  | SearchTerms => is_empty (trim (searchTerms fd))
  | Location => is_empty (trim (location fd))
  | NumberOfPlaces =>
      number_lt (numberOfPlaces fd) (Num 1)
      || number_gt (numberOfPlaces fd) (Num 100)
  end.

Definition message_of (f : field) : jsstring :=
  match f with
  | SearchTerms => msg_searchTerms
  | Location => msg_location
  | NumberOfPlaces => msg_numberOfPlaces
  end.

(** A result that is not [OutOfFuel] and whose rest is shorter than the
    input. *)
Definition consumes {A : Type} (s : jsstring) (r : parse_result A) : Prop :=
  match r with
  | ParseOk _ rest => (List.length rest < List.length s)%nat
  | ParseError => True
  | OutOfFuel => False
  end.

(** The response bodies and the result URLs of the worked examples. *)
Definition body_json : jsstring :=
  quoted "[{'Set Webhook Information': 'link: https://docs.google.com/spreadsheets/d/ABC123'}]".

Definition body_text : jsstring :=
  str "see https://docs.google.com/spreadsheets/d/XYZ789 for results".

Definition body_other_json : jsstring :=
  quoted "{'result': 'https://docs.google.com/spreadsheets/d/ABC123'}".

Definition url_ABC123 : jsstring :=
  str "https://docs.google.com/spreadsheets/d/ABC123".

Definition url_XYZ789 : jsstring :=
  str "https://docs.google.com/spreadsheets/d/XYZ789".

Definition a_timestamp : jsstring := str "2024-01-01T00:00:00.000Z".

(** The page after a sequence of events. *)
Fixpoint run (evs : list event) (p : Page) : option Page :=
  match evs with
  | [] => Some p
  | ev :: evs' =>
      match step ev p with
      | Some p' => run evs' p'
      | None => None
      end
  end.

(** The value a form holds for a field, and the value an edit carries:
    a string or a Number. *)
Definition value_of (fd : FormData) (f : field) : jsstring + number :=
  match f with
  | SearchTerms => inl (searchTerms fd)
  | Location => inl (location fd)
  | NumberOfPlaces => inr (numberOfPlaces fd)
  end.

Definition edit_value (e : edit) : jsstring + number :=
  match e with
  | EditSearchTerms v => inl v
  | EditLocation v => inl v
  | EditNumberOfPlaces v => inr v
  end.

(** A page on which a failed validation has left two errors. *)
Definition rejectedState : State :=
  fst (handleSubmit_begin a_timestamp initialState).

(** A session that ends with a success displayed. *)
Definition successSession : list event :=
  [ChangeSearchTerms (str "coffee shops");
   ChangeLocation (str "Paris");
   Submit a_timestamp;
   FetchSettled (Fulfilled {| status := 200; text := Fulfilled body_json |})].

(** A session after which an error and a success are shown together: the
    search terms are emptied while the request is in flight, the request
    succeeds, and the emptied form is submitted again. *)
Definition editedInFlightSession : list event :=
  [ChangeSearchTerms (str "coffee shops");
   ChangeLocation (str "Paris");
   Submit a_timestamp;
   ChangeSearchTerms [];
   FetchSettled (Fulfilled {| status := 200; text := Fulfilled body_json |});
   Submit a_timestamp].

(** A form that passes validation, used to run the examples. *)
Definition sampleState : State :=
  onChange_location (str "Paris")
    (onChange_searchTerms (str "coffee shops") initialState).

(* ================================================================= *)
(** * Properties of the platform fragment *)
(* ================================================================= *)

(** ** The platform functions on sample inputs *)

Section PlatformExamples.

Example trim_spaces : trim (str "  New York ") = str "New York".
Proof. reflexivity. Qed.

Example trim_blank : trim (str "   ") = [].
Proof. reflexivity. Qed.

Example parseInt_plain : parseInt (str "42") = Num 42.
Proof. reflexivity. Qed.

Example parseInt_fraction : parseInt (str "12.7") = Num 12.
Proof. reflexivity. Qed.

Example parseInt_exponent : parseInt (str "1e5") = Num 1.
Proof. reflexivity. Qed.

Example parseInt_negative : parseInt (str "-3") = Num (-3).
Proof. reflexivity. Qed.

Example parseInt_hex : parseInt (str "0x1F") = Num 31.
Proof. reflexivity. Qed.

Example parseInt_empty : parseInt (str "") = NaN.
Proof. reflexivity. Qed.

Example parseInt_minus : parseInt (str "-") = NaN.
Proof. reflexivity. Qed.

Example regex_match_first :
  regex_match
    (str "a https://docs.google.com/spreadsheets/d/ b https://docs.google.com/spreadsheets/d/x-1_Y/edit https://docs.google.com/spreadsheets/d/z")
  = Some (str "https://docs.google.com/spreadsheets/d/x-1_Y").
Proof. vm_compute. reflexivity. Qed.

Example regex_match_case : regex_match (str "HTTPS://docs.google.com/spreadsheets/d/x") = None.
Proof. vm_compute. reflexivity. Qed.

Example JSON_parse_array :
  JSON_parse (quoted " [ {'a' : [true, null]} , -1.50e2, 'xA\n' ] ")
  = Normal
      (JArray
         [JObject [(str "a", JArray [JBool true; JNull])];
          JNumber (Decimal true 150 0);
          JString [120; 65; 10]%N]).
Proof. vm_compute. reflexivity. Qed.

Example JSON_parse_trailing_comma : JSON_parse (str "[1,]") = Throw SyntaxErrorExn.
Proof. vm_compute. reflexivity. Qed.

Example JSON_parse_leading_zero : JSON_parse (str "01") = Throw SyntaxErrorExn.
Proof. vm_compute. reflexivity. Qed.

Example JSON_parse_text : JSON_parse (str "OK") = Throw SyntaxErrorExn.
Proof. vm_compute. reflexivity. Qed.

Example JSON_parse_duplicate_key :
  match JSON_parse (quoted "{'k': 1, 'k': 'last'}") with
  | Normal (JObject ms) => get_own (str "k") ms
  | _ => None
  end = Some (JString (str "last")).
Proof. vm_compute. reflexivity. Qed.

(** An object with members [length] and [0] passes the test of line 93
    like an array does; the string ['2'] is greater than 0. *)
Example array_like_object :
  try_json
    (quoted "{'length': '2', '0': {'Set Webhook Information': 'https://docs.google.com/spreadsheets/d/k9'}}")
  = Normal (str "https://docs.google.com/spreadsheets/d/k9").
Proof. vm_compute. reflexivity. Qed.

Example member_not_a_string :
  try_json (quoted "[{'Set Webhook Information': 7}]") = Throw TypeErrorExn.
Proof. vm_compute. reflexivity. Qed.

Example member_without_url :
  try_json (quoted "[{'Set Webhook Information': 'no link'}]")
  = Throw (ErrorExn msg_not_found).
Proof. vm_compute. reflexivity. Qed.

Example first_element_null :
  try_json (str "[null]") = Throw TypeErrorExn.
Proof. vm_compute. reflexivity. Qed.

Example string_sign_samples :
  List.map string_sign
    [str ""; str " 12 "; str "0x1f"; str "-0"; str "-Infinity"; str "5.";
     str ".5e2"; str "."; str "1e-400"; str "1,2"]
  = [Zero; Positive; Positive; Zero; Negative; Positive;
     Positive; NotANumber; Zero; NotANumber].
Proof. vm_compute. reflexivity. Qed.

End PlatformExamples.

(** ** The regular expression *)

Section Regex.

Local Open Scope N_scope.

Lemma strip_prefix_Some : forall p s rest,
  strip_prefix p s = Some rest <-> s = p ++ rest.
Proof.
  induction p as [|a p IH]; intros s rest; simpl.
  - split; intro H; [injection H as ->|subst]; reflexivity.
  - destruct s as [|b s]; [split; discriminate|].
    destruct (N.eqb_spec a b) as [->|Hne].
    + rewrite IH. split; intro H; [subst|injection H as ->]; reflexivity.
    + split; [discriminate|]. intro H. injection H as H _. congruence.
Qed.

Lemma take_while_Forall : forall f s,
  Forall (fun c => f c = true) (take_while f s).
Proof.
  induction s as [|c s IH]; simpl; [constructor|].
  destruct (f c) eqn:E; constructor; assumption.
Qed.

Lemma take_while_split : forall f s,
  exists rest,
    s = take_while f s ++ rest
    /\ (forall c rest', rest = c :: rest' -> f c = false).
Proof.
  induction s as [|c s [rest [IH1 IH2]]]; simpl.
  - exists []. split; [reflexivity|discriminate].
  - destruct (f c) eqn:E.
    + exists rest. split; [simpl; f_equal; exact IH1|exact IH2].
    + exists (c :: s). split; [reflexivity|].
      intros c' rest' H. injection H as <- _. exact E.
Qed.

Lemma take_while_app : forall f id post,
  Forall (fun c => f c = true) id ->
  take_while f (id ++ post) = id ++ take_while f post.
Proof.
  induction 1 as [|c id Hc _ IH]; simpl; [reflexivity|].
  rewrite Hc, IH. reflexivity.
Qed.

Lemma match_here_Some : forall s u,
  match_here s = Some u ->
  is_sheet_url u
  /\ exists post,
       s = u ++ post /\ (forall c post', post = c :: post' -> isIdChar c = false).
Proof.
  unfold match_here. intros s u H.
  destruct (strip_prefix sheetUrlPrefix s) as [rest|] eqn:Hp; [|discriminate].
  apply strip_prefix_Some in Hp.
  destruct (take_while_split isIdChar rest) as [post [Hs Hpost]].
  pose proof (take_while_Forall isIdChar rest) as Hall.
  destruct (take_while isIdChar rest) as [|c id] eqn:Hid; [discriminate|].
  assert (Hu : u = sheetUrlPrefix ++ c :: id) by congruence.
  clear H. subst u. split.
  - exists (c :: id). repeat split; [discriminate|assumption].
  - exists post. split; [|exact Hpost].
    rewrite Hp, Hs, <- app_assoc. reflexivity.
Qed.

Lemma match_here_None : forall s u post,
  match_here s = None -> s = u ++ post -> ~ is_sheet_url u.
Proof.
  unfold match_here. intros s u post H Hs [id [Hu [Hne Hall]]].
  subst u s. rewrite <- app_assoc in H.
  replace (strip_prefix sheetUrlPrefix (sheetUrlPrefix ++ id ++ post))
    with (Some (id ++ post)) in H
    by (symmetry; apply strip_prefix_Some; reflexivity).
  rewrite take_while_app in H by assumption.
  destruct id as [|c id]; [congruence|]. discriminate.
Qed.

Local Opaque match_here.

Lemma regex_match_None : forall s u,
  regex_match s = None -> ~ occurs_in s u.
Proof.
  induction s as [|c s IH]; intros u H [pre [post [Hs Hu]]].
  - simpl in H. destruct (match_here []) eqn:E; [discriminate|].
    destruct pre; [|discriminate]. simpl in Hs.
    exact (match_here_None _ u post E Hs Hu).
  - simpl in H. destruct (match_here (c :: s)) eqn:E; [discriminate|].
    destruct pre as [|c' pre].
    + exact (match_here_None _ u post E Hs Hu).
    + injection Hs as _ Hs. apply (IH u H). exists pre, post. auto.
Qed.

Lemma regex_match_Some : forall s u,
  regex_match s = Some u -> first_match s u.
Proof.
  induction s as [|c s IH]; intros u H.
  - simpl in H. destruct (match_here []) eqn:E; [|discriminate].
    injection H as ->. apply match_here_Some in E.
    destruct E as [Hu [post [Hs Hpost]]].
    exists [], post. repeat split; auto. intros. simpl. lia.
  - simpl in H. destruct (match_here (c :: s)) eqn:E.
    + injection H as ->. apply match_here_Some in E.
      destruct E as [Hu [post [Hs Hpost]]].
      exists [], post. repeat split; auto. intros. simpl. lia.
    + destruct (IH u H) as [pre [post [Hs [Hu [Hpost Hleft]]]]].
      exists (c :: pre), post. repeat split; auto.
      * simpl. rewrite <- Hs. reflexivity.
      * intros pre' u' post' Hs' Hu'. destruct pre' as [|c' pre'].
        -- exfalso. exact (match_here_None _ u' post' E Hs' Hu').
        -- injection Hs' as _ Hs'. simpl.
           apply le_n_S. exact (Hleft pre' u' post' Hs' Hu').
Qed.

(** A string that holds a word of the language has a first match, and
    [regex_match] returns it. *)
Lemma regex_match_occurs : forall s u,
  occurs_in s u -> exists m, regex_match s = Some m /\ first_match s m.
Proof.
  intros s u H. destruct (regex_match s) as [m|] eqn:E.
  - exists m. split; [reflexivity|]. apply regex_match_Some. exact E.
  - exfalso. exact (regex_match_None _ u E H).
Qed.

Local Transparent match_here.

Lemma is_sheet_url_nonempty : forall u, is_sheet_url u -> u <> [].
Proof.
  intros u [id [-> [Hne _]]] H. apply app_eq_nil in H. destruct H; auto.
Qed.

(** The run of class characters of a match is determined by what follows
    the prefix, so the first match is unique. *)
Lemma take_while_stop : forall f post,
  (forall c post', post = c :: post' -> f c = false) ->
  take_while f post = [].
Proof.
  intros f [|c post] H; simpl; [reflexivity|].
  rewrite (H c post eq_refl). reflexivity.
Qed.

Lemma app_same_length : forall (a b x y : jsstring),
  List.length a = List.length b -> a ++ x = b ++ y -> a = b /\ x = y.
Proof.
  induction a as [|c a IH]; intros [|d b] x y Hlen H; simpl in *;
    try discriminate; [split; auto|].
  injection H as -> H. destruct (IH b x y) as [-> ->]; auto.
Qed.

Lemma first_match_unique : forall s u u',
  first_match s u -> first_match s u' -> u = u'.
Proof.
  intros s u u' [pre [post [Hs [Hu [Hpost Hleft]]]]]
         [pre' [post' [Hs' [Hu' [Hpost' Hleft']]]]].
  pose proof (Hleft pre' u' post' Hs' Hu') as L1.
  pose proof (Hleft' pre u post Hs Hu) as L2.
  assert (Hlen : List.length pre = List.length pre') by lia.
  assert (Hpre : pre = pre' /\ u ++ post = u' ++ post').
  { rewrite Hs in Hs'. apply app_same_length; assumption. }
  destruct Hpre as [_ Heq].
  destruct Hu as [id [-> [_ Hall]]]. destruct Hu' as [id' [-> [_ Hall']]].
  rewrite <- !app_assoc in Heq. apply app_inv_head in Heq.
  assert (H : take_while isIdChar (id ++ post)
              = take_while isIdChar (id' ++ post')) by (rewrite Heq; reflexivity).
  rewrite !take_while_app in H by assumption.
  rewrite (take_while_stop isIdChar post Hpost) in H.
  rewrite (take_while_stop isIdChar post' Hpost') in H.
  rewrite !app_nil_r in H. subst id'. reflexivity.
Qed.

End Regex.

(** ** The parser never runs out of fuel

    Every successful step consumes input, so [parse_fuel] bounds the
    nesting of the calls: [JSON_parse] throws only on a syntax error. *)

Section Parser.

Local Open Scope nat_scope.

Lemma skip_ws_length : forall s, List.length (skip_ws s) <= List.length s.
Proof.
  induction s as [|c s IH]; simpl; [lia|].
  destruct (isJsonWhiteSpace c); simpl; lia.
Qed.

Lemma skip_ws_cons_length : forall s c r,
  skip_ws s = c :: r -> List.length r < List.length s.
Proof.
  intros s c r H. pose proof (skip_ws_length s) as L.
  rewrite H in L. simpl in L. lia.
Qed.

Lemma span_digits_length : forall s ds rest,
  span_digits s = (ds, rest) ->
  List.length s = List.length ds + List.length rest.
Proof.
  induction s as [|c s IH]; simpl; intros ds rest H.
  - injection H as <- <-. reflexivity.
  - destruct (isDigit c).
    + destruct (span_digits s) as [ds' rest'] eqn:E.
      injection H as <- <-. simpl. rewrite (IH ds' rest' eq_refl). reflexivity.
    + injection H as <- <-. reflexivity.
Qed.

Lemma strip_prefix_length : forall p s rest,
  strip_prefix p s = Some rest ->
  List.length s = List.length p + List.length rest.
Proof.
  intros p s rest H. apply strip_prefix_Some in H. subst s.
  apply length_app.
Qed.

Lemma starts_with_length : forall c s r,
  starts_with c s = Some r -> List.length s = S (List.length r).
Proof.
  intros c [|x s] r H; simpl in H; [discriminate|].
  destruct (x =? c)%N; [|discriminate]. injection H as <-. reflexivity.
Qed.

Lemma read_sign_length : forall s neg r,
  read_sign s = (neg, r) -> List.length r <= List.length s.
Proof.
  unfold read_sign. intros s neg r H.
  destruct (starts_with 45%N s) as [r1|] eqn:E1.
  - apply starts_with_length in E1. injection H as _ <-. lia.
  - destruct (starts_with 43%N s) as [r2|] eqn:E2.
    + apply starts_with_length in E2. injection H as _ <-. lia.
    + injection H as _ <-. lia.
Qed.

Lemma scan_exponent_length : forall s e rest,
  scan_exponent s = Some (e, rest) -> List.length rest < List.length s.
Proof.
  unfold scan_exponent. intros s e rest H.
  destruct (read_sign s) as [neg s1] eqn:E1. apply read_sign_length in E1.
  destruct (span_digits s1) as [ds rest0] eqn:E2.
  apply span_digits_length in E2.
  destruct ds as [|c ds]; [discriminate|].
  injection H as _ <-. simpl in E2. lia.
Qed.

Lemma scan_opt_exponent_length : forall s e rest,
  scan_opt_exponent s = Some (e, rest) -> List.length rest <= List.length s.
Proof.
  unfold scan_opt_exponent. intros [|c r] e rest H.
  - injection H as _ <-. lia.
  - destruct ((c =? 101)%N || (c =? 69)%N).
    + apply scan_exponent_length in H. simpl. lia.
    + injection H as _ <-. lia.
Qed.

Lemma read_minus_length : forall s neg r,
  read_minus s = (neg, r) -> List.length r <= List.length s.
Proof.
  unfold read_minus. intros s neg r H.
  destruct (starts_with 45%N s) as [r1|] eqn:E.
  - apply starts_with_length in E. injection H as _ <-. lia.
  - injection H as _ <-. lia.
Qed.

Lemma scan_int_length : forall s ids rest,
  scan_int s = Some (ids, rest) -> List.length rest < List.length s.
Proof.
  unfold scan_int. intros [|c r] ids rest H; [discriminate|].
  destruct (c =? 48)%N.
  - injection H as _ <-. simpl. lia.
  - destruct (isDigit c) eqn:Ed; [|discriminate].
    destruct (span_digits (c :: r)) as [ds0 rest0] eqn:E.
    injection H as <- <-.
    pose proof (span_digits_length _ _ _ E) as L.
    simpl in E. rewrite Ed in E.
    destruct (span_digits r) as [ds' rest']. injection E as <- _.
    simpl in L |- *. lia.
Qed.

Lemma scan_frac_length : forall s fds rest,
  scan_frac s = Some (fds, rest) -> List.length rest <= List.length s.
Proof.
  unfold scan_frac. intros s fds rest H.
  destruct (starts_with 46%N s) as [r|] eqn:E.
  - apply starts_with_length in E.
    destruct (span_digits r) as [ds' rest'] eqn:E'.
    apply span_digits_length in E'.
    destruct ds'; [discriminate|]. injection H as _ <-. lia.
  - injection H as _ <-. lia.
Qed.

Lemma scan_number_length : forall s d rest,
  scan_number s = Some (d, rest) -> List.length rest < List.length s.
Proof.
  unfold scan_number. intros s d rest H.
  destruct (read_minus s) as [neg s1] eqn:E1. apply read_minus_length in E1.
  destruct (scan_int s1) as [[ids s2]|] eqn:E2; [|discriminate].
  apply scan_int_length in E2.
  destruct (scan_frac s2) as [[fds s3]|] eqn:E3; [|discriminate].
  apply scan_frac_length in E3.
  destruct (scan_opt_exponent s3) as [[e s4]|] eqn:E4; [|discriminate].
  apply scan_opt_exponent_length in E4.
  injection H as _ <-. lia.
Qed.

Lemma scan_string_length : forall n s cs rest,
  List.length s <= n ->
  scan_string s = Some (cs, rest) -> List.length rest < List.length s.
Proof.
  induction n as [|n IH]; intros s cs rest Hn H.
  - destruct s; [discriminate|simpl in Hn; lia].
  - destruct s as [|c r]; [discriminate|]. simpl in Hn.
    cbn [scan_string] in H.
    destruct (c =? 34)%N.
    { injection H as _ <-. simpl. lia. }
    destruct (c =? 92)%N.
    + destruct r as [|e r1]; [discriminate|]. simpl in Hn.
      destruct (e =? 117)%N.
      * destruct r1 as [|a [|b [|c' [|d r2]]]]; try discriminate.
        destruct (hex4 a b c' d); [|discriminate].
        destruct (scan_string r2) as [[cs' rest']|] eqn:E; [|discriminate].
        apply IH in E; [|simpl in Hn; lia].
        injection H as _ <-. simpl. lia.
      * destruct (simple_escape e); [|discriminate].
        destruct (scan_string r1) as [[cs' rest']|] eqn:E; [|discriminate].
        apply IH in E; [|lia].
        injection H as _ <-. simpl. lia.
    + destruct (c <? 32)%N; [discriminate|].
      destruct (scan_string r) as [[cs' rest']|] eqn:E; [|discriminate].
      apply IH in E; [|lia].
      injection H as _ <-. simpl. lia.
Qed.

Lemma parse_scalar_consumes : forall s, consumes s (parse_scalar s).
Proof.
  unfold parse_scalar. intros [|c r]; [exact I|].
  destruct (c =? 34)%N.
  - destruct (scan_string r) as [[cs rest]|] eqn:E; simpl; [|exact I].
    apply (scan_string_length (List.length r)) in E; lia.
  - destruct (strip_prefix lit_true (c :: r)) as [rest|] eqn:E1.
    { apply strip_prefix_length in E1. simpl in *. lia. }
    destruct (strip_prefix lit_false (c :: r)) as [rest|] eqn:E2.
    { apply strip_prefix_length in E2. simpl in *. lia. }
    destruct (strip_prefix lit_null (c :: r)) as [rest|] eqn:E3.
    { apply strip_prefix_length in E3. simpl in *. lia. }
    destruct (scan_number (c :: r)) as [[d rest]|] eqn:E4; simpl; [|exact I].
    apply scan_number_length in E4. simpl in E4. exact E4.
Qed.

Lemma consumes_mono : forall (A : Type) (s1 s2 : jsstring) (r : parse_result A),
  consumes s1 r -> List.length s1 <= List.length s2 -> consumes s2 r.
Proof.
  intros A s1 s2 [v rest| |] H L; simpl in *; [lia|exact I|exact H].
Qed.

Lemma parse_consumes : forall fuel,
  (forall s, 2 * List.length s + 1 <= fuel -> consumes s (parse_value fuel s))
  /\ (forall s, 2 * List.length s + 2 <= fuel ->
                consumes s (parse_elements fuel s))
  /\ (forall s, 2 * List.length s + 2 <= fuel ->
                consumes s (parse_members fuel s)).
Proof.
  induction fuel as [|fuel [IHv [IHe IHm]]].
  - repeat split; intros s L; lia.
  - repeat split; intros s L.
    + (* a value *)
      cbn [parse_value].
      destruct (skip_ws s) as [|c r] eqn:Es; [exact I|].
      pose proof (skip_ws_cons_length _ _ _ Es) as Lr.
      destruct (c =? 91)%N.
      { destruct (starts_with 93%N (skip_ws r)) as [r'|] eqn:E.
        - apply starts_with_length in E.
          pose proof (skip_ws_length r). simpl. lia.
        - pose proof (IHe r ltac:(lia)) as H.
          destruct (parse_elements fuel r); simpl in *; auto; lia. }
      destruct (c =? 123)%N.
      { destruct (starts_with 125%N (skip_ws r)) as [r'|] eqn:E.
        - apply starts_with_length in E.
          pose proof (skip_ws_length r). simpl. lia.
        - pose proof (IHm r ltac:(lia)) as H.
          destruct (parse_members fuel r); simpl in *; auto; lia. }
      apply consumes_mono with (s1 := c :: r);
        [apply parse_scalar_consumes|simpl; lia].
    + (* the elements of an array *)
      cbn [parse_elements].
      pose proof (IHv s ltac:(lia)) as H.
      destruct (parse_value fuel s) as [v r| |]; simpl in H; auto.
      destruct (skip_ws r) as [|c r'] eqn:Es; [exact I|].
      pose proof (skip_ws_cons_length _ _ _ Es) as Lr.
      destruct (c =? 93)%N; [simpl; lia|].
      destruct (c =? 44)%N; [|exact I].
      pose proof (IHe r' ltac:(lia)) as H'.
      destruct (parse_elements fuel r'); simpl in *; auto; lia.
    + (* the members of an object *)
      cbn [parse_members].
      destruct (starts_with 34%N (skip_ws s)) as [r|] eqn:E0; [|exact I].
      apply starts_with_length in E0. pose proof (skip_ws_length s) as L0.
      destruct (scan_string r) as [[k r1]|] eqn:E1; [|exact I].
      apply (scan_string_length (List.length r)) in E1; [|lia].
      destruct (starts_with 58%N (skip_ws r1)) as [r2|] eqn:E2; [|exact I].
      apply starts_with_length in E2. pose proof (skip_ws_length r1) as L1.
      pose proof (IHv r2 ltac:(lia)) as H.
      destruct (parse_value fuel r2) as [v r3| |]; simpl in H; auto.
      destruct (skip_ws r3) as [|c r4] eqn:Es; [exact I|].
      pose proof (skip_ws_cons_length _ _ _ Es) as Lr.
      destruct (c =? 125)%N; [simpl; lia|].
      destruct (c =? 44)%N; [|exact I].
      pose proof (IHm r4 ltac:(lia)) as H'.
      destruct (parse_members fuel r4); simpl in *; auto; lia.
Qed.

(** [JSON_parse] decides its input with the fuel it is given. *)
Lemma parse_value_fuel : forall text,
  parse_value (parse_fuel text) text <> OutOfFuel.
Proof.
  intros text H.
  destruct (parse_consumes (parse_fuel text)) as [Hv _].
  specialize (Hv text). unfold parse_fuel in *.
  rewrite H in Hv. apply Hv. lia.
Qed.

(** The inner call did not run out of fuel, since the outer one [H] did
    not. *)
Ltac inner_call_decided H :=
  let E := fresh "E" in
  intros E; rewrite E in H; apply H; reflexivity.

(** More fuel does not change a result that was reached. *)
Lemma parse_more_fuel : forall fuel,
  (forall s more, fuel <= more -> parse_value fuel s <> OutOfFuel ->
                  parse_value more s = parse_value fuel s)
  /\ (forall s more, fuel <= more -> parse_elements fuel s <> OutOfFuel ->
                     parse_elements more s = parse_elements fuel s)
  /\ (forall s more, fuel <= more -> parse_members fuel s <> OutOfFuel ->
                     parse_members more s = parse_members fuel s).
Proof.
  induction fuel as [|fuel [IHv [IHe IHm]]].
  - repeat split; intros s more L H; contradiction H; reflexivity.
  - repeat split; intros s [|more] L H; try lia.
    + (* a value *)
      cbn [parse_value] in *.
      destruct (skip_ws s) as [|c r]; [reflexivity|].
      destruct (c =? 91)%N.
      { destruct (starts_with 93%N (skip_ws r)); [reflexivity|].
        rewrite (IHe r more); [reflexivity|lia|inner_call_decided H]. }
      destruct (c =? 123)%N; [|reflexivity].
      destruct (starts_with 125%N (skip_ws r)); [reflexivity|].
      rewrite (IHm r more); [reflexivity|lia|inner_call_decided H].
    + (* the elements of an array *)
      cbn [parse_elements] in *.
      rewrite (IHv s more); [|lia|inner_call_decided H].
      destruct (parse_value fuel s) as [v r| |]; try reflexivity.
      destruct (skip_ws r) as [|c r']; [reflexivity|].
      destruct (c =? 93)%N; [reflexivity|].
      destruct (c =? 44)%N; [|reflexivity].
      rewrite (IHe r' more); [reflexivity|lia|inner_call_decided H].
    + (* the members of an object *)
      cbn [parse_members] in *.
      destruct (starts_with 34%N (skip_ws s)) as [r|]; [|reflexivity].
      destruct (scan_string r) as [[k r1]|]; [|reflexivity].
      destruct (starts_with 58%N (skip_ws r1)) as [r2|]; [|reflexivity].
      rewrite (IHv r2 more); [|lia|inner_call_decided H].
      destruct (parse_value fuel r2) as [v r3| |]; try reflexivity.
      destruct (skip_ws r3) as [|c r4]; [reflexivity|].
      destruct (c =? 125)%N; [reflexivity|].
      destruct (c =? 44)%N; [|reflexivity].
      rewrite (IHm r4 more); [reflexivity|lia|inner_call_decided H].
Qed.

(** The result of [JSON_parse] is the one every larger amount of fuel
    gives. *)
Lemma parse_value_any_fuel : forall text more,
  parse_fuel text <= more ->
  parse_value more text = parse_value (parse_fuel text) text.
Proof.
  intros text more L.
  destruct (parse_more_fuel (parse_fuel text)) as [Hv _].
  apply Hv; [exact L|apply parse_value_fuel].
Qed.

End Parser.


(* ================================================================= *)
(** * Properties of the form controller *)
(* ================================================================= *)

(** ** Validation *)

Section Validation.

Lemma is_empty_true : forall s : jsstring, is_empty s = true <-> s = [].
Proof. intros [|c s]; simpl; split; congruence. Qed.

Lemma newErrors_error_of : forall fd f,
  error_of (newErrors_of fd) f
  = if invalid fd f then Some (message_of f) else None.
Proof.
  intros fd f. unfold newErrors_of, invalid.
  destruct (is_empty (trim (searchTerms fd)));
    destruct (is_empty (trim (location fd)));
    destruct (number_lt (numberOfPlaces fd) (Num 1)
              || number_gt (numberOfPlaces fd) (Num 100));
    destruct f; reflexivity.
Qed.

Lemma newErrors_has_error : forall fd f,
  has_error (newErrors_of fd) f = invalid fd f.
Proof.
  intros fd f. unfold has_error. rewrite newErrors_error_of.
  destruct (invalid fd f); [destruct f|]; reflexivity.
Qed.

Lemma newErrors_key_count : forall fd,
  Nat.eqb (key_count (newErrors_of fd)) 0
  = negb (invalid fd SearchTerms || invalid fd Location
          || invalid fd NumberOfPlaces).
Proof.
  intros fd. unfold key_count. cbn [List.filter].
  rewrite !newErrors_error_of.
  destruct (invalid fd SearchTerms), (invalid fd Location),
    (invalid fd NumberOfPlaces); reflexivity.
Qed.

(** On an integer the test of the source is the contract. *)
Lemma invalid_contract : forall fd f z,
  numberOfPlaces fd = Num z ->
  (invalid fd f = true <-> fails_contract fd f).
Proof.
  intros fd f z Hz. destruct f; simpl.
  - apply is_empty_true.
  - apply is_empty_true.
  - rewrite Hz. unfold in_range, number_gt, number_lt.
    rewrite orb_true_iff, !Z.ltb_lt. split.
    + intros H [z' [E R]]. injection E as <-. lia.
    + intros H.
      destruct (Z_lt_dec z 1); [auto|]. destruct (Z_lt_dec 100 z); [auto|].
      exfalso. apply H. exists z. split; [reflexivity|lia].
Qed.

(** [NaN] is outside the range and yet passes the test of line 54: both
    comparisons are false. *)
Lemma invalid_NaN : forall fd,
  numberOfPlaces fd = NaN ->
  invalid fd NumberOfPlaces = false /\ fails_contract fd NumberOfPlaces.
Proof.
  intros fd H. simpl. rewrite H. split; [reflexivity|].
  intros [z [E _]]. discriminate.
Qed.

(** An infinity fails the test of line 54 and the contract alike, so
    the test is the contract on every Number but [NaN]. *)
Lemma invalid_contract_not_NaN : forall fd f,
  numberOfPlaces fd <> NaN ->
  (invalid fd f = true <-> fails_contract fd f).
Proof.
  intros fd f H.
  destruct (numberOfPlaces fd) as [|z|negative] eqn:E; [congruence| |].
  - exact (invalid_contract fd f z E).
  - destruct f; simpl.
    + apply is_empty_true.
    + apply is_empty_true.
    + rewrite E. split.
      * intros _ [z [Ez _]]. discriminate.
      * intros _. destruct negative; reflexivity.
Qed.

Lemma validateForm_state : forall st,
  validateForm st
  = (negb (invalid (formData st) SearchTerms
           || invalid (formData st) Location
           || invalid (formData st) NumberOfPlaces),
     setErrors (fun _ => newErrors_of (formData st)) st).
Proof.
  intros st. unfold validateForm. rewrite newErrors_key_count. reflexivity.
Qed.

End Validation.

(** C2. For a form whose number of places is an integer, validation
    records an error for the search terms exactly when their trimmed value
    is empty, for the location exactly when its trimmed value is empty,
    and for the number of places exactly when it is outside [1, 100]; 1
    and 100 pass, 0 and 101 fail. *)
Theorem validateForm_contract : forall st z,
  numberOfPlaces (formData st) = Num z ->
  let st' := snd (validateForm st) in
  (errorShown st' SearchTerms = true <-> trim (searchTerms (formData st)) = [])
  /\ (errorShown st' Location = true <-> trim (location (formData st)) = [])
  /\ (errorShown st' NumberOfPlaces = true <-> ~ (1 <= z <= 100)%Z)
  /\ (forall f, error_of (errors st') f = None <-> errorShown st' f = false)
  /\ (z = 1%Z \/ z = 100%Z -> errorShown st' NumberOfPlaces = false)
  /\ (z = 0%Z \/ z = 101%Z -> errorShown st' NumberOfPlaces = true).
Proof.
  intros st z Hz st'. subst st'. rewrite validateForm_state.
  unfold errorShown. cbn [snd setErrors errors].
  rewrite !newErrors_has_error.
  assert (Hn : invalid (formData st) NumberOfPlaces = true
               <-> ~ (1 <= z <= 100)%Z).
  { simpl. rewrite Hz. unfold number_gt, number_lt.
    rewrite orb_true_iff, !Z.ltb_lt. lia. }
  split; [apply is_empty_true|].
  split; [apply is_empty_true|].
  split; [exact Hn|].
  split; [|split].
  - intros f. rewrite newErrors_has_error, newErrors_error_of.
    destruct (invalid (formData st) f); split; congruence.
  - intros H. destruct (invalid (formData st) NumberOfPlaces); [|reflexivity].
    exfalso. apply (proj1 Hn eq_refl). lia.
  - intros H. apply Hn. lia.
Qed.

Lemma validateForm_contract_witness :
  numberOfPlaces (formData sampleState) = Num 10
  /\ errorShown (snd (validateForm sampleState)) NumberOfPlaces = false.
Proof.
  split; [reflexivity|].
  destruct (validateForm_contract sampleState 10 eq_refl)
    as [_ [_ [Hn _]]].
  destruct (errorShown (snd (validateForm sampleState)) NumberOfPlaces);
    [|reflexivity].
  exfalso. apply (proj1 Hn eq_refl). lia.
Defined.

(** C3. When a field of a form with an integer number of places fails the
    contract, a submit attempt issues no request, whatever the network
    would have answered, and shows an error for exactly the failing
    fields; the rest of the state is untouched. *)
Theorem invalid_form_is_not_sent : forall now during o st z,
  numberOfPlaces (formData st) = Num z ->
  (exists f, fails_contract (formData st) f) ->
  let r := submission now during o st in
  (forall request, ~ In (Fetch request) (snd r))
  /\ r = handleSubmit_begin now st
  /\ (forall f, errorShown (fst r) f = true <-> fails_contract (formData st) f)
  /\ (forall f, error_of (errors (fst r)) f = None
                <-> ~ fails_contract (formData st) f)
  /\ formData (fst r) = formData st
  /\ isSubmitting (fst r) = isSubmitting st
  /\ googleSheetUrl (fst r) = googleSheetUrl st
  /\ showSuccess (fst r) = showSuccess st.
Proof.
  intros now during o st z Hz [f0 Hf0] r.
  assert (Hinv : invalid (formData st) SearchTerms
                 || invalid (formData st) Location
                 || invalid (formData st) NumberOfPlaces = true).
  { apply (invalid_contract _ _ _ Hz) in Hf0.
    destruct f0; rewrite Hf0; rewrite ?orb_true_r; reflexivity. }
  assert (Hr : r = (setErrors (fun _ => newErrors_of (formData st)) st,
                    [PreventDefault])).
  { subst r. unfold submission, handleSubmit_begin.
    rewrite validateForm_state, Hinv. reflexivity. }
  assert (Hb : handleSubmit_begin now st = r).
  { rewrite Hr. unfold handleSubmit_begin.
    rewrite validateForm_state, Hinv. reflexivity. }
  rewrite Hr. cbn [fst snd setErrors formData errors isSubmitting
                   googleSheetUrl showSuccess].
  split; [|split; [|split; [|split]]].
  - intros request [H|[]]. discriminate.
  - rewrite <- Hr. symmetry. exact Hb.
  - intros f. unfold errorShown. cbn [errors setErrors].
    rewrite newErrors_has_error. apply (invalid_contract _ _ _ Hz).
  - intros f. rewrite newErrors_error_of.
    rewrite <- (invalid_contract _ f _ Hz).
    destruct (invalid (formData st) f); split; congruence.
  - repeat split.
Qed.

Lemma invalid_form_is_not_sent_witness :
  let r := submission a_timestamp [] (Rejected ThrownOther) initialState in
  ~ In (Fetch (mkRequest (formData initialState) a_timestamp)) (snd r)
  /\ errorShown (fst r) SearchTerms = true
  /\ errorShown (fst r) NumberOfPlaces = false.
Proof.
  destruct (invalid_form_is_not_sent a_timestamp [] (Rejected ThrownOther)
              initialState 10 eq_refl
              (ex_intro _ SearchTerms eq_refl))
    as [Hfetch [_ [Hshown _]]].
  split; [apply Hfetch|]. split.
  - apply Hshown. reflexivity.
  - reflexivity.
Defined.

(** ** Reachable pages *)

Section Reachability.

(** The page after a handler, for each event that can happen. *)
Lemma step_Some : forall ev p p',
  step ev p = Some p' ->
  match ev with
  | ChangeSearchTerms v =>
      p' = {| state := onChange_searchTerms v (state p);
              inFlight := inFlight p |}
  | ChangeLocation v =>
      p' = {| state := onChange_location v (state p);
              inFlight := inFlight p |}
  | ChangeNumberOfPlaces v =>
      p' = {| state := onChange_numberOfPlaces v (state p);
              inFlight := inFlight p |}
  | Submit now =>
      p' = {| state := fst (handleSubmit_begin now (state p));
              inFlight := inFlight p
                          + issued (snd (handleSubmit_begin now (state p))) |}
  | FetchSettled o =>
      exists n,
        inFlight p = S n
        /\ p' = {| state := fst (handleSubmit_resume o (state p));
                   inFlight := n |}
  end.
Proof.
  intros ev p p' H. destruct ev as [v|v|v|now|o]; simpl in H.
  - injection H as <-. reflexivity.
  - injection H as <-. reflexivity.
  - injection H as <-. reflexivity.
  - destruct (handleSubmit_begin now (state p)) as [st effs].
    injection H as <-. reflexivity.
  - destruct (inFlight p) as [|n]; [discriminate|].
    injection H as <-. exists n. auto.
Qed.

(** A property of the state that holds initially and is kept by the five
    handlers holds in every reachable page. *)
Lemma reachable_state_ind : forall P : State -> Prop,
  P initialState ->
  (forall v st, P st -> P (onChange_searchTerms v st)) ->
  (forall v st, P st -> P (onChange_location v st)) ->
  (forall v st, P st -> P (onChange_numberOfPlaces v st)) ->
  (forall now st, P st -> P (fst (handleSubmit_begin now st))) ->
  (forall o st, P st -> P (fst (handleSubmit_resume o st))) ->
  forall p, reachable p -> P (state p).
Proof.
  intros P H0 H1 H2 H3 H4 H5.
  induction 1 as [|p ev p' Hp IH Hstep]; [exact H0|].
  apply step_Some in Hstep. destruct ev as [v|v|v|now|o].
  - subst p'. apply H1, IH.
  - subst p'. apply H2, IH.
  - subst p'. apply H3, IH.
  - subst p'. apply H4, IH.
  - destruct Hstep as [n [_ ->]]. apply H5, IH.
Qed.

(** The five cells after an edit. *)
Lemma handleInputChange_cells : forall e st,
  let st' := handleInputChange e st in
  formData st' = assign e (formData st)
  /\ errors st'
     = (if has_error (errors st) (edit_field e)
        then with_error (errors st) (edit_field e) None
        else errors st)
  /\ isSubmitting st' = isSubmitting st
  /\ googleSheetUrl st' = (if showSuccess st then [] else googleSheetUrl st)
  /\ showSuccess st' = false.
Proof.
  intros e st. unfold handleInputChange.
  destruct (has_error (errors st) (edit_field e)), (showSuccess st) eqn:E;
    repeat split; auto.
Qed.

Lemma handleSubmit_begin_state : forall now st,
  fst (handleSubmit_begin now st)
  = if fst (validateForm st)
    then setGoogleSheetUrl []
           (setShowSuccess false
              (setIsSubmitting true (snd (validateForm st))))
    else snd (validateForm st).
Proof.
  intros now st. unfold handleSubmit_begin.
  destruct (validateForm st) as [[|] st1]; reflexivity.
Qed.

End Reachability.

(** ** The submission flow *)

Section Submission.

(** An edit while a request is in flight keeps the three status cells. *)
Lemma handleInputChange_in_flight : forall e st,
  showSuccess st = false -> googleSheetUrl st = [] ->
  let st' := handleInputChange e st in
  showSuccess st' = false /\ googleSheetUrl st' = []
  /\ isSubmitting st' = isSubmitting st.
Proof.
  intros e st Hs Hu.
  destruct (handleInputChange_cells e st) as [_ [_ [Hi [Hu' Hs']]]].
  rewrite Hs in Hu'. split; [exact Hs'|]. split; [congruence|exact Hi].
Qed.

Lemma edits_in_flight : forall during st,
  showSuccess st = false -> googleSheetUrl st = [] ->
  let st' := fold_left (fun s e => handleInputChange e s) during st in
  showSuccess st' = false /\ googleSheetUrl st' = []
  /\ isSubmitting st' = isSubmitting st.
Proof.
  induction during as [|e during IH]; intros st Hs Hu; simpl; [auto|].
  destruct (handleInputChange_in_flight e st Hs Hu) as [Hs' [Hu' Hi']].
  destruct (IH _ Hs' Hu') as [Hs'' [Hu'' Hi'']].
  repeat split; congruence.
Qed.

(** A valid form is sent: the attempt is the continuation of the call,
    run on a state that is submitting and shows no success. *)
Lemma submission_valid : forall now during o st,
  fst (validateForm st) = true ->
  exists st2,
    isSubmitting st2 = true /\ showSuccess st2 = false
    /\ googleSheetUrl st2 = []
    /\ submission now during o st
       = (fst (handleSubmit_resume o st2),
          [PreventDefault; Fetch (mkRequest (formData st) now)]
          ++ snd (handleSubmit_resume o st2)).
Proof.
  intros now during o st Hv. unfold submission, handleSubmit_begin.
  destruct (validateForm st) as [valid st1]. simpl in Hv. subst valid.
  cbn [negb issued List.filter List.length].
  set (st1' := setGoogleSheetUrl [] (setShowSuccess false
                                       (setIsSubmitting true st1))).
  destruct (edits_in_flight during st1' eq_refl eq_refl) as [Hs [Hu Hi]].
  exists (fold_left (fun s e => handleInputChange e s) during st1').
  repeat split; auto.
  destruct (handleSubmit_resume o _) as [st3 effs2]. reflexivity.
Qed.

(** Before it throws or succeeds, the continuation only reads the body
    and logs it. *)
Lemma interpret_effects : forall o e,
  In e (snd (interpret o)) -> e = ReadText \/ exists t, e = ConsoleLog t.
Proof.
  intros o e. unfold interpret.
  destruct o as [response|reason]; [|simpl; tauto].
  destruct (ok response); [destruct (text response)|]; simpl;
    intuition eauto.
Qed.

Lemma resume_Fulfilled : forall o st url,
  fst (interpret o) = Fulfilled url ->
  handleSubmit_resume o st
  = (setIsSubmitting false (setShowSuccess true (setGoogleSheetUrl url st)),
     snd (interpret o)).
Proof.
  intros o st url H. unfold handleSubmit_resume.
  destruct (interpret o) as [result effs]. simpl in H. subst result.
  reflexivity.
Qed.

Lemma resume_Rejected : forall o st error,
  fst (interpret o) = Rejected error ->
  handleSubmit_resume o st
  = (setIsSubmitting false st,
     snd (interpret o) ++ [ConsoleError error; Alert (alert_text error)]).
Proof.
  intros o st error H. unfold handleSubmit_resume.
  destruct (interpret o) as [result effs]. simpl in H. subst result.
  reflexivity.
Qed.

(** The two ways a sent attempt ends, from what the continuation
    computes. *)
Lemma submission_Success : forall now during o st url,
  fst (validateForm st) = true ->
  fst (interpret o) = Fulfilled url -> url <> [] ->
  ends_in_Success (submission now during o st) url.
Proof.
  intros now during o st url Hv Hi Hne.
  destruct (submission_valid now during o st Hv) as [st2 [_ [_ [_ ->]]]].
  rewrite (resume_Fulfilled o st2 _ Hi). unfold ends_in_Success, successShown.
  cbn [fst snd isSubmitting showSuccess googleSheetUrl setIsSubmitting
       setShowSuccess setGoogleSheetUrl].
  do 3 (split; [reflexivity|]). split.
  - destruct url; [congruence|reflexivity].
  - intros m. cbn [app In]. intros [H|[H|H]]; try discriminate.
    apply interpret_effects in H. destruct H as [H|[t H]]; discriminate.
Qed.

Lemma submission_Failed : forall now during o st error,
  fst (validateForm st) = true ->
  fst (interpret o) = Rejected error ->
  ends_in_Failed (submission now during o st) (alert_text error).
Proof.
  intros now during o st error Hv Hi.
  destruct (submission_valid now during o st Hv) as [st2 [_ [Hs [Hu ->]]]].
  rewrite (resume_Rejected o st2 _ Hi). unfold ends_in_Failed, successShown.
  cbn [fst snd isSubmitting showSuccess googleSheetUrl setIsSubmitting].
  rewrite Hs, Hu. do 4 (split; [reflexivity|]).
  intros m. cbn [app In]. split.
  - intros [H|[H|H]]; try discriminate.
    apply in_app_or in H. destruct H as [H|[H|[H|[]]]]; try discriminate.
    + apply interpret_effects in H. destruct H as [H|[t H]]; discriminate.
    + congruence.
  - intros ->. right. right. apply in_or_app. right. right. left. reflexivity.
Qed.

(** What the inner [try] hands to [setGoogleSheetUrl] is a match of the
    expression in a string member. *)
Lemma try_json_Normal : forall responseText url,
  try_json responseText = Normal url ->
  exists info, regex_match info = Some url.
Proof.
  unfold try_json. intros responseText url H.
  destruct (JSON_parse responseText) as [responseData|]; [|discriminate].
  cbn [bind] in H.
  destruct (has_webhook_information responseData) as [[|]|];
    try discriminate.
  cbn [bind] in H.
  destruct (index_zero responseData) as [first|]; [|discriminate].
  cbn [bind] in H.
  destruct (get_member key_webhook first) as [webhookInfo|]; [|discriminate].
  cbn [bind] in H.
  destruct webhookInfo as [[| | |info| |]|]; try discriminate.
  cbn [String_match bind] in H.
  exists info. destruct (regex_match info); congruence.
Qed.

(** Whatever the body is, a URL that leaves the two extraction
    strategies is a word of the language of the expression. *)
Lemma extract_url_sheet : forall responseText url,
  extract_url responseText = Fulfilled url -> is_sheet_url url.
Proof.
  unfold extract_url. intros responseText url H.
  destruct (try_json responseText) as [u|e] eqn:E.
  - injection H as ->. apply try_json_Normal in E. destruct E as [info E].
    apply regex_match_Some in E. destruct E as [_ [_ [_ [E _]]]]. exact E.
  - destruct (regex_match responseText) as [u|] eqn:E'; [|discriminate].
    injection H as ->.
    apply regex_match_Some in E'. destruct E' as [_ [_ [_ [E' _]]]]. exact E'.
Qed.

(** The [catch] of line 106 receives every failure of the [try], not
    only the one of [JSON.parse]: the outcome is then the search of the
    raw text. *)
Lemma extract_url_fallback : forall responseText e,
  try_json responseText = Throw e ->
  extract_url responseText
  = match regex_match responseText with
    | Some url => Fulfilled url
    | None => Rejected (ThrownError msg_no_json)
    end.
Proof.
  intros responseText e H. unfold extract_url. rewrite H. reflexivity.
Qed.

Lemma interpret_ok : forall status responseText,
  ok {| status := status; text := Fulfilled responseText |} = true ->
  interpret (Fulfilled {| status := status; text := Fulfilled responseText |})
  = (extract_url responseText, [ReadText; ConsoleLog responseText]).
Proof.
  intros status responseText H. unfold interpret. rewrite H. reflexivity.
Qed.

(** With no edit in between, an attempt is one call of [handleSubmit]. *)
Lemma submission_no_edits : forall now o st,
  submission now [] o st = handleSubmit now o st.
Proof.
  intros now o st. unfold submission, handleSubmit, handleSubmit_begin.
  destruct (validateForm st) as [[|] st1]; reflexivity.
Qed.

(** A body that parses but fails the test of line 93 takes the same way
    as a body that does not parse. *)
Lemma extract_url_invalid_format : forall responseText responseData,
  JSON_parse responseText = Normal responseData ->
  has_webhook_information responseData = Normal false ->
  try_json responseText = Throw (ErrorExn msg_invalid_format)
  /\ extract_url responseText
     = match regex_match responseText with
       | Some url => Fulfilled url
       | None => Rejected (ThrownError msg_no_json)
       end.
Proof.
  intros responseText responseData Hp Hw.
  assert (Ht : try_json responseText = Throw (ErrorExn msg_invalid_format)).
  { unfold try_json. rewrite Hp. cbn [bind]. rewrite Hw. reflexivity. }
  split; [exact Ht|]. exact (extract_url_fallback _ _ Ht).
Qed.

End Submission.

Section Outcomes.

Local Open Scope N_scope.

Lemma ok_range : forall status body,
  ok {| status := status; text := body |} = true <-> 200 <= status <= 299.
Proof.
  intros status body. unfold ok. cbn [App.status].
  rewrite andb_true_iff, !N.leb_le. tauto.
Qed.

Lemma sampleState_valid : fst (validateForm sampleState) = true.
Proof. reflexivity. Qed.

Lemma url_ABC123_occurs :
  occurs_in (str "link: https://docs.google.com/spreadsheets/d/ABC123")
    url_ABC123.
Proof.
  exists (str "link: "), []. split; [reflexivity|].
  exists (str "ABC123"). split; [reflexivity|].
  split; [discriminate|]. repeat constructor.
Qed.

End Outcomes.

(** C4. When the body of a successful response parses to a non-empty
    array whose first element is an object with a string member
    [Set Webhook Information] in which the expression has a match, the
    attempt ends in Success with the first match as URL.  The body
    [body_json] gives the URL
    [https://docs.google.com/spreadsheets/d/ABC123]. *)
Theorem json_member_gives_Success :
  (forall now during st status responseText members elements info u,
      fst (validateForm st) = true ->
      (200 <= status <= 299)%N ->
      JSON_parse responseText = Normal (JArray (JObject members :: elements)) ->
      get_own key_webhook members = Some (JString info) ->
      occurs_in info u ->
      exists url,
        first_match info url
        /\ ends_in_Success
             (submission now during
                (Fulfilled {| status := status;
                              text := Fulfilled responseText |}) st)
             url)
  /\ (forall now during st status,
         fst (validateForm st) = true ->
         (200 <= status <= 299)%N ->
         ends_in_Success
           (submission now during
              (Fulfilled {| status := status; text := Fulfilled body_json |})
              st)
           url_ABC123).
Proof.
  split.
  - intros now during st status responseText members elements info u
           Hv Hs Hp Hm Ho.
    destruct (regex_match_occurs info u Ho) as [url [Hr Hf]].
    exists url. split; [exact Hf|].
    assert (Hinfo : is_empty info = false).
    { destruct Ho as [pre [post [E Hu]]].
      apply is_sheet_url_nonempty in Hu.
      destruct info; [|reflexivity].
      destruct pre; [destruct u; [congruence|discriminate]|discriminate]. }
    apply submission_Success; [exact Hv| |].
    + rewrite interpret_ok by (apply ok_range; exact Hs).
      cbn [fst]. unfold extract_url, try_json. rewrite Hp.
      cbn [bind has_webhook_information truthy negb length_gt_zero
           index_zero hd_error get_member].
      rewrite Hm. cbn [bind truthy_opt truthy String_match].
      rewrite Hinfo. cbn [negb bind]. rewrite Hr. reflexivity.
    + apply regex_match_Some in Hr. destruct Hr as [_ [_ [_ [Hr _]]]].
      apply is_sheet_url_nonempty. exact Hr.
  - intros now during st status Hv Hs.
    apply submission_Success; [exact Hv| |discriminate].
    rewrite interpret_ok by (apply ok_range; exact Hs).
    vm_compute. reflexivity.
Qed.

Lemma json_member_gives_Success_witness :
  exists url,
    first_match (str "link: https://docs.google.com/spreadsheets/d/ABC123") url
    /\ ends_in_Success
         (submission a_timestamp []
            (Fulfilled {| status := 200; text := Fulfilled body_json |})
            sampleState)
         url.
Proof.
  refine (proj1 json_member_gives_Success a_timestamp [] sampleState 200%N
            body_json
            [(key_webhook,
              JString (str "link: https://docs.google.com/spreadsheets/d/ABC123"))]
            []
            (str "link: https://docs.google.com/spreadsheets/d/ABC123")
            url_ABC123 _ _ _ _ _).
  - reflexivity.
  - lia.
  - vm_compute. reflexivity.
  - vm_compute. reflexivity.
  - exact url_ABC123_occurs.
Defined.

(** C5. When the body of a successful response is not valid JSON, the
    raw text is searched with the expression: a match ends the attempt in
    Success with the first match as URL, no match ends it in Failed with
    the message of line 114.  The body [body_text] gives the URL
    [https://docs.google.com/spreadsheets/d/XYZ789]. *)
Theorem non_json_body_is_searched :
  (forall now during st status responseText,
      fst (validateForm st) = true ->
      (200 <= status <= 299)%N ->
      JSON_parse responseText = Throw SyntaxErrorExn ->
      let r := submission now during
                 (Fulfilled {| status := status;
                               text := Fulfilled responseText |}) st in
      ((exists u, occurs_in responseText u) ->
       exists url, first_match responseText url /\ ends_in_Success r url)
      /\ ((forall u, ~ occurs_in responseText u) ->
          ends_in_Failed r (msg_alert_prefix ++ msg_no_json)))
  /\ JSON_parse body_text = Throw SyntaxErrorExn
  /\ (forall now during st status,
         fst (validateForm st) = true ->
         (200 <= status <= 299)%N ->
         ends_in_Success
           (submission now during
              (Fulfilled {| status := status; text := Fulfilled body_text |})
              st)
           url_XYZ789).
Proof.
  split; [|split].
  - intros now during st status responseText Hv Hs Hp r.
    assert (Ht : try_json responseText = Throw SyntaxErrorExn).
    { unfold try_json. rewrite Hp. reflexivity. }
    assert (Hi : fst (interpret
                        (Fulfilled {| status := status;
                                      text := Fulfilled responseText |}))
                 = match regex_match responseText with
                   | Some url => Fulfilled url
                   | None => Rejected (ThrownError msg_no_json)
                   end).
    { rewrite interpret_ok by (apply ok_range; exact Hs).
      cbn [fst]. apply (extract_url_fallback _ _ Ht). }
    split.
    + intros [u Ho].
      destruct (regex_match_occurs responseText u Ho) as [url [Hr Hf]].
      exists url. split; [exact Hf|].
      rewrite Hr in Hi. apply submission_Success; [exact Hv|exact Hi|].
      destruct Hf as [_ [_ [_ [Hu _]]]].
      apply is_sheet_url_nonempty. exact Hu.
    + intros Hno.
      destruct (regex_match responseText) as [url|] eqn:Hr.
      * exfalso. apply regex_match_Some in Hr.
        destruct Hr as [pre [post [E [Hu _]]]].
        apply (Hno url). exists pre, post. auto.
      * apply (submission_Failed now during _ st _ Hv Hi).
  - vm_compute. reflexivity.
  - intros now during st status Hv Hs.
    apply submission_Success; [exact Hv| |discriminate].
    rewrite interpret_ok by (apply ok_range; exact Hs).
    vm_compute. reflexivity.
Qed.

Lemma non_json_body_is_searched_witness :
  exists url,
    first_match body_text url
    /\ ends_in_Success
         (submission a_timestamp []
            (Fulfilled {| status := 200; text := Fulfilled body_text |})
            sampleState)
         url.
Proof.
  refine (proj1 (proj1 non_json_body_is_searched a_timestamp [] sampleState
                   200%N body_text _ _ _) _).
  - reflexivity.
  - lia.
  - vm_compute. reflexivity.
  - exists url_XYZ789, (str "see "), (str " for results").
    split; [reflexivity|].
    exists (str "XYZ789"). split; [reflexivity|].
    split; [discriminate|]. repeat constructor.
Defined.

(** C6. When the status of the response is outside 200-299, the attempt
    ends in Failed with the status in the message, no URL is held, and the
    body is not read: the outcome is the same for every body.  Status 500
    gives the message [Error submitting form: HTTP error! status: 500]. *)
Theorem http_error_status_fails :
  (forall now during st status body,
      fst (validateForm st) = true ->
      ~ (200 <= status <= 299)%N ->
      let r := submission now during
                 (Fulfilled {| status := status; text := body |}) st in
      ends_in_Failed r
        (msg_alert_prefix ++ msg_http_error ++ N_to_jsstring status)
      /\ ~ In ReadText (snd r)
      /\ (forall t, ~ In (ConsoleLog t) (snd r))
      /\ (forall body',
             submission now during
               (Fulfilled {| status := status; text := body' |}) st = r))
  /\ (forall now during st body,
         fst (validateForm st) = true ->
         ends_in_Failed
           (submission now during
              (Fulfilled {| status := 500; text := body |}) st)
           (str "Error submitting form: HTTP error! status: 500")).
Proof.
  assert (G : forall status body,
             ~ (200 <= status <= 299)%N ->
             interpret (Fulfilled {| status := status; text := body |})
             = (Rejected (ThrownError (msg_http_error ++ N_to_jsstring status)),
                [])).
  { intros status body Hs. unfold interpret.
    destruct (ok {| status := status; text := body |}) eqn:E.
    - apply ok_range in E. contradiction.
    - reflexivity. }
  split.
  - intros now during st status body Hv Hs r.
    pose proof (G status body Hs) as Hi.
    split; [|split; [|split]].
    + subst r.
      apply (submission_Failed now during _ st
               (ThrownError (msg_http_error ++ N_to_jsstring status)) Hv).
      rewrite Hi. reflexivity.
    + subst r.
      destruct (submission_valid now during
                  (Fulfilled {| status := status; text := body |}) st Hv)
        as [st2 [_ [_ [_ ->]]]].
      rewrite (resume_Rejected _ st2 _ (f_equal fst Hi)), Hi.
      cbn [fst snd app In]. intuition discriminate.
    + subst r.
      destruct (submission_valid now during
                  (Fulfilled {| status := status; text := body |}) st Hv)
        as [st2 [_ [_ [_ ->]]]].
      rewrite (resume_Rejected _ st2 _ (f_equal fst Hi)), Hi.
      cbn [fst snd app In]. intros t. intuition discriminate.
    + intros body'. subst r. unfold submission.
      destruct (handleSubmit_begin now st) as [st1 effs1].
      destruct (issued effs1); [reflexivity|].
      unfold handleSubmit_resume.
      rewrite (G status body Hs), (G status body' Hs). reflexivity.
  - intros now during st body Hv.
    apply (submission_Failed now during _ st
             (ThrownError (msg_http_error ++ N_to_jsstring 500)) Hv).
    rewrite G by lia. reflexivity.
Qed.

Lemma http_error_status_fails_witness :
  ends_in_Failed
    (submission a_timestamp []
       (Fulfilled {| status := 500; text := Fulfilled body_json |})
       sampleState)
    (msg_alert_prefix ++ msg_http_error ++ N_to_jsstring 500).
Proof.
  refine (proj1 (proj1 http_error_status_fails a_timestamp [] sampleState
                   500%N (Fulfilled body_json) _ _)).
  - reflexivity.
  - lia.
Defined.

(** C1 (what the source does instead). The body [body_other_json],
    an object with the URL under the key [result], is valid JSON and is
    not an array; the [try] throws [Invalid response format],
    the [catch] of line 106 receives it and finds the URL in the raw
    text, and the attempt ends in Success.  With a body that holds no URL
    the attempt fails with the message written for invalid JSON. *)
Theorem json_without_member_reaches_the_fallback :
  JSON_parse body_other_json
  = Normal (JObject [(str "result", JString url_ABC123)])
  /\ try_json body_other_json = Throw (ErrorExn msg_invalid_format)
  /\ ends_in_Success
       (submission a_timestamp []
          (Fulfilled {| status := 200; text := Fulfilled body_other_json |})
          sampleState)
       url_ABC123
  /\ JSON_parse (str "{}") = Normal (JObject [])
  /\ ends_in_Failed
       (submission a_timestamp []
          (Fulfilled {| status := 200; text := Fulfilled (str "{}") |})
          sampleState)
       (str "Error submitting form: Response is not valid JSON and no Google Sheet URL found").
Proof.
  split; [vm_compute; reflexivity|].
  split; [vm_compute; reflexivity|].
  split; [|split; [vm_compute; reflexivity|]].
  - apply submission_Success;
      [reflexivity|vm_compute; reflexivity|discriminate].
  - apply (submission_Failed a_timestamp [] _ sampleState
             (ThrownError msg_no_json)); [reflexivity|].
    vm_compute. reflexivity.
Qed.

(** C7. The continuation of [handleSubmit] clears [isSubmitting] for
    every way the request can settle: a URL found, a body without URL, a
    body that cannot be read, a status outside 200-299, a rejected
    [fetch].  A valid attempt sets the flag, keeps it while the request
    is in flight and ends with it cleared; and a page that is submitting
    always has a request in flight whose settling re-enables the
    button. *)
Theorem submitting_always_ends :
  (forall o st, isSubmitting (fst (handleSubmit_resume o st)) = false)
  /\ (forall now during o st,
         fst (validateForm st) = true ->
         isSubmitting (fst (handleSubmit_begin now st)) = true
         /\ isSubmitting
              (fold_left (fun s e => handleInputChange e s) during
                 (fst (handleSubmit_begin now st))) = true
         /\ isSubmitting (fst (submission now during o st)) = false)
  /\ (forall p,
         reachable p -> isSubmitting (state p) = true ->
         (0 < inFlight p)%nat
         /\ forall o, exists p',
              step (FetchSettled o) p = Some p'
              /\ isSubmitting (state p') = false
              /\ submitDisabled (state p') = false).
Proof.
  assert (R : forall o st, isSubmitting (fst (handleSubmit_resume o st)) = false).
  { intros o st. unfold handleSubmit_resume.
    destruct (interpret o) as [[url|error] effs]; reflexivity. }
  split; [exact R|split].
  - intros now during o st Hv.
    assert (Hb : handleSubmit_begin now st
                 = (setGoogleSheetUrl []
                      (setShowSuccess false
                         (setIsSubmitting true (snd (validateForm st)))),
                    [PreventDefault; Fetch (mkRequest (formData st) now)])).
    { unfold handleSubmit_begin. destruct (validateForm st) as [valid st1].
      simpl in Hv. subst valid. reflexivity. }
    split; [rewrite Hb; reflexivity|split].
    + rewrite Hb. cbn [fst].
      match goal with
      | |- isSubmitting (fold_left _ _ ?s) = true =>
          destruct (edits_in_flight during s eq_refl eq_refl) as [_ [_ ->]]
      end.
      reflexivity.
    + destruct (submission_valid now during o st Hv) as [st2 [_ [_ [_ ->]]]].
      apply R.
  - assert (I : forall p, reachable p ->
                  isSubmitting (state p) = true -> (0 < inFlight p)%nat).
    { assert (E : forall e st,
                 isSubmitting (handleInputChange e st) = isSubmitting st).
      { intros e st. apply handleInputChange_cells. }
      induction 1 as [|p ev p' Hp IH Hstep]; [discriminate|].
      apply step_Some in Hstep. destruct ev as [v|v|v|now|o].
      - subst p'. cbn [state inFlight]. unfold onChange_searchTerms.
        rewrite E. exact IH.
      - subst p'. cbn [state inFlight]. unfold onChange_location.
        rewrite E. exact IH.
      - subst p'. cbn [state inFlight]. unfold onChange_numberOfPlaces.
        rewrite E. exact IH.
      - subst p'. cbn [state inFlight]. unfold handleSubmit_begin.
        destruct (validateForm (state p)) as [valid st1] eqn:Ev.
        unfold validateForm in Ev. injection Ev as _ <-.
        destruct valid; cbn [negb fst snd]; unfold issued; simpl.
        + intros _. lia.
        + rewrite Nat.add_0_r. exact IH.
      - destruct Hstep as [n [_ ->]]. cbn [state]. rewrite R. discriminate. }
    intros p Hp Hs. pose proof (I p Hp Hs) as Hf.
    split; [exact Hf|].
    intros o. simpl. destruct (inFlight p) as [|n]; [lia|].
    eexists. split; [reflexivity|]. cbn [state]. unfold submitDisabled.
    rewrite R. auto.
Qed.

Lemma submitting_always_ends_witness :
  isSubmitting (fst (handleSubmit_begin a_timestamp sampleState)) = true
  /\ isSubmitting
       (fst (submission a_timestamp [] (Rejected ThrownOther) sampleState))
     = false.
Proof.
  destruct (proj1 (proj2 submitting_always_ends) a_timestamp []
              (Rejected ThrownOther) sampleState eq_refl) as [H1 [_ H2]].
  split; [exact H1|exact H2].
Defined.

(** ** The number of places *)

Section NumberOfPlaces.

Local Open Scope N_scope.

Lemma number_or_zero : forall n,
  number_or n (Num 0) = match n with NaN => Num 0 | _ => n end.
Proof.
  intros [|z|negative]; [reflexivity| |reflexivity].
  unfold number_or, number_truthy.
  destruct (Z.eqb_spec z 0) as [->|_]; reflexivity.
Qed.

(** Up to 2^53 every integer is a double. *)
Lemma nearest_double_exact : forall m,
  m <= 9007199254740992 -> nearest_double m = Some m.
Proof.
  intros m H. unfold nearest_double.
  destruct (N.ltb_spec m 9007199254740992) as [_|G]; [reflexivity|].
  assert (E : m = 9007199254740992) by lia. subst m.
  vm_compute. reflexivity.
Qed.

Lemma to_Number_exact : forall (neg : bool) m,
  m <= 9007199254740992 ->
  to_Number neg m = Num (if neg then - Z.of_N m else Z.of_N m).
Proof.
  intros neg m H. unfold to_Number. rewrite (nearest_double_exact m H).
  reflexivity.
Qed.

(** A sign and a magnitude give an integer or the infinity of that
    sign. *)
Lemma to_Number_cases : forall neg m,
  (exists z, to_Number neg m = Num z) \/ to_Number neg m = Inf neg.
Proof.
  intros neg m. unfold to_Number.
  destruct (nearest_double m) as [v|]; [left; eauto|right; reflexivity].
Qed.

(** Twenty nines are read as 10^20, the odd integer after 2^53 as
    2^53, and a one with 309 zeros as an infinity. *)
Example parseInt_twenty_nines :
  parseInt (repeat 57 20) = Num 100000000000000000000.
Proof. vm_compute. reflexivity. Qed.

Example parseInt_after_2_53 :
  parseInt (str "9007199254740993") = Num 9007199254740992
  /\ parseInt (str "9007199254740995") = Num 9007199254740996
  /\ parseInt (str "-9007199254740992") = Num (-9007199254740992).
Proof. vm_compute. repeat split; reflexivity. Qed.

Example parseInt_overflow :
  parseInt (49 :: repeat 48 309) = Inf false
  /\ parseInt (45 :: 49 :: repeat 48 309) = Inf true
  /\ exists z, parseInt (49 :: repeat 48 308) = Num z.
Proof.
  split; [vm_compute; reflexivity|]. split; [vm_compute; reflexivity|].
  destruct (parseInt (49 :: repeat 48 308)) as [|z|negative] eqn:E;
    [vm_compute in E; discriminate|exists z; reflexivity
    |vm_compute in E; discriminate].
Qed.

Lemma parseInt_not_fractional : forall value,
  parseInt value = NaN
  \/ (exists z, parseInt value = Num z)
  \/ (exists negative, parseInt value = Inf negative).
Proof.
  intros value. unfold parseInt.
  destruct (read_sign (trimStart value)) as [neg S1].
  destruct (read_radix S1) as [R S2].
  destruct (leading_digits R S2 None) as [m|]; [right|left; reflexivity].
  destruct (to_Number_cases neg m) as [H|H]; [left; exact H|right; eauto].
Qed.

Lemma isDigit_cases : forall c,
  isDigit c = true ->
  c = 48 \/ c = 49 \/ c = 50 \/ c = 51 \/ c = 52
  \/ c = 53 \/ c = 54 \/ c = 55 \/ c = 56 \/ c = 57.
Proof.
  unfold isDigit. intros c H.
  apply andb_true_iff in H. rewrite !N.leb_le in H. lia.
Qed.

Lemma digit_in_radix_10 : forall c,
  isDigit c = true -> digit_in_radix 10 c = Some (c - 48).
Proof.
  intros c H. apply isDigit_cases in H.
  repeat (destruct H as [->|H]; [reflexivity|]). subst c. reflexivity.
Qed.



End NumberOfPlaces.


Lemma onChange_numberOfPlaces_stores : forall value st,
  numberOfPlaces (formData (onChange_numberOfPlaces value st))
  = number_or (parseInt value) (Num 0).
Proof.
  intros value st. unfold onChange_numberOfPlaces.
  rewrite (proj1 (handleInputChange_cells _ st)). reflexivity.
Qed.

(** The number of places of a reachable page is never [NaN]. *)
Lemma numberOfPlaces_not_NaN : forall p,
  reachable p -> numberOfPlaces (formData (state p)) <> NaN.
Proof.
  apply (reachable_state_ind
           (fun st => numberOfPlaces (formData st) <> NaN)).
  - discriminate.
  - intros v st IH. unfold onChange_searchTerms.
    rewrite (proj1 (handleInputChange_cells _ st)). exact IH.
  - intros v st IH. unfold onChange_location.
    rewrite (proj1 (handleInputChange_cells _ st)). exact IH.
  - intros v st _. rewrite onChange_numberOfPlaces_stores, number_or_zero.
    destruct (parseInt v); discriminate.
  - intros now st IH. rewrite handleSubmit_begin_state.
    destruct (fst (validateForm st)); exact IH.
  - intros o st IH. unfold handleSubmit_resume.
    destruct (interpret o) as [[url|error] effs]; exact IH.
Qed.




(** ** The displayed URL *)

Section DisplayedUrl.

Lemma run_reachable : forall evs p p',
  reachable p -> run evs p = Some p' -> reachable p'.
Proof.
  induction evs as [|ev evs IH]; intros p p' Hp H; simpl in H.
  - injection H as <-. exact Hp.
  - destruct (step ev p) as [p1|] eqn:E; [|discriminate].
    apply (IH p1 p'); [|exact H]. exact (reachable_step p ev p1 Hp E).
Qed.

Lemma interpret_Fulfilled : forall o url,
  fst (interpret o) = Fulfilled url -> is_sheet_url url.
Proof.
  intros o url. unfold interpret.
  destruct o as [response|reason]; [|discriminate].
  destruct (ok response); [|discriminate].
  destruct (text response) as [responseText|reason]; [|discriminate].
  cbn [fst]. apply extract_url_sheet.
Qed.

(** The URL cell holds the empty string or a word of the language of
    the expression, in every reachable page. *)
Lemma url_invariant : forall p,
  reachable p ->
  googleSheetUrl (state p) = [] \/ is_sheet_url (googleSheetUrl (state p)).
Proof.
  assert (E : forall e st,
             googleSheetUrl st = [] \/ is_sheet_url (googleSheetUrl st) ->
             googleSheetUrl (handleInputChange e st) = []
             \/ is_sheet_url (googleSheetUrl (handleInputChange e st))).
  { intros e st IH.
    destruct (handleInputChange_cells e st) as [_ [_ [_ [-> _]]]].
    destruct (showSuccess st); auto. }
  apply (reachable_state_ind
           (fun st => googleSheetUrl st = []
                      \/ is_sheet_url (googleSheetUrl st))).
  - left. reflexivity.
  - intros v st IH. apply E, IH.
  - intros v st IH. apply E, IH.
  - intros v st IH. apply E, IH.
  - intros now st IH. rewrite handleSubmit_begin_state.
    destruct (fst (validateForm st)); [left; reflexivity|exact IH].
  - intros o st IH. unfold handleSubmit_resume.
    destruct (interpret o) as [[url|error] effs] eqn:Ei; [|exact IH].
    right. cbn [fst googleSheetUrl setIsSubmitting setShowSuccess
                setGoogleSheetUrl].
    apply (interpret_Fulfilled o). rewrite Ei. reflexivity.
Qed.

(** A set success flag comes with a URL: the two cells are written
    together. *)
Lemma success_has_url : forall p,
  reachable p -> showSuccess (state p) = true ->
  is_sheet_url (googleSheetUrl (state p)).
Proof.
  apply (reachable_state_ind
           (fun st => showSuccess st = true -> is_sheet_url (googleSheetUrl st))).
  - discriminate.
  - intros v st _ H. unfold onChange_searchTerms in H.
    rewrite (proj2 (proj2 (proj2 (proj2 (handleInputChange_cells _ st))))) in H.
    discriminate.
  - intros v st _ H. unfold onChange_location in H.
    rewrite (proj2 (proj2 (proj2 (proj2 (handleInputChange_cells _ st))))) in H.
    discriminate.
  - intros v st _ H. unfold onChange_numberOfPlaces in H.
    rewrite (proj2 (proj2 (proj2 (proj2 (handleInputChange_cells _ st))))) in H.
    discriminate.
  - intros now st IH. rewrite handleSubmit_begin_state.
    destruct (fst (validateForm st)); [discriminate|exact IH].
  - intros o st IH. unfold handleSubmit_resume.
    destruct (interpret o) as [[url|error] effs] eqn:Ei; [|exact IH].
    intros _. cbn [fst googleSheetUrl setIsSubmitting setShowSuccess
                   setGoogleSheetUrl].
    apply (interpret_Fulfilled o). rewrite Ei. reflexivity.
Qed.

End DisplayedUrl.

(** C10. In every reachable page that displays the success panel, the
    URL is not empty and is [https://docs.google.com/spreadsheets/d/]
    followed by one or more letters, digits, hyphens or underscores. *)
Theorem displayed_url_is_a_sheet_url : forall p,
  reachable p -> successShown (state p) = true ->
  googleSheetUrl (state p) <> []
  /\ exists c id,
       googleSheetUrl (state p) = sheetUrlPrefix ++ c :: id
       /\ isIdChar c = true
       /\ Forall (fun x => isIdChar x = true) id.
Proof.
  intros p Hp Hs. unfold successShown in Hs.
  apply andb_true_iff in Hs. destruct Hs as [_ Hs].
  destruct (url_invariant p Hp) as [H|H].
  - rewrite H in Hs. discriminate.
  - split; [apply is_sheet_url_nonempty; exact H|].
    destruct H as [id [E [Hne Hall]]].
    destruct id as [|c id]; [congruence|].
    inversion Hall; subst. exists c, id. auto.
Qed.

Lemma displayed_url_is_a_sheet_url_witness :
  exists p,
    run successSession initialPage = Some p
    /\ successShown (state p) = true
    /\ googleSheetUrl (state p) = url_ABC123
    /\ googleSheetUrl (state p) <> [].
Proof.
  destruct (run successSession initialPage) as [p|] eqn:E;
    [|vm_compute in E; discriminate].
  exists p. split; [reflexivity|].
  assert (Hs : successShown (state p) = true).
  { vm_compute in E. injection E as <-. reflexivity. }
  split; [exact Hs|]. split.
  - vm_compute in E. injection E as <-. reflexivity.
  - exact (proj1 (displayed_url_is_a_sheet_url
                    p (run_reachable successSession _ _ reachable_initial E) Hs)).
Defined.

(** ** Edits *)

(** C8. An edit stores the new value of its field and nothing else in
    the form; when an error is shown for that field it clears that error
    and leaves the errors of the other fields as they are; it never
    touches [isSubmitting]; when a success is displayed it clears the
    flag and the URL, and otherwise (the flag is not set or, on a
    reachable page, no success is displayed) leaves both as they are. *)
Theorem edit_clears_only_its_own_error :
  (forall e st,
      let f := edit_field e in
      let st' := handleInputChange e st in
      value_of (formData st') f = edit_value e
      /\ (forall g, g <> f ->
                    value_of (formData st') g = value_of (formData st) g)
      /\ (forall g, g <> f ->
                    error_of (errors st') g = error_of (errors st) g)
      /\ (errorShown st f = true ->
          error_of (errors st') f = None /\ errorShown st' f = false)
      /\ (errorShown st f = false ->
          error_of (errors st') f = error_of (errors st) f)
      /\ isSubmitting st' = isSubmitting st
      /\ (successShown st = true ->
          showSuccess st' = false /\ googleSheetUrl st' = []
          /\ successShown st' = false)
      /\ (showSuccess st = false ->
          showSuccess st' = false /\ googleSheetUrl st' = googleSheetUrl st))
  /\ (forall p e,
         reachable p -> successShown (state p) = false ->
         showSuccess (handleInputChange e (state p)) = showSuccess (state p)
         /\ googleSheetUrl (handleInputChange e (state p))
            = googleSheetUrl (state p)).
Proof.
  split.
  2:{ intros p e Hp Hs.
      destruct (handleInputChange_cells e (state p)) as [_ [_ [_ [Hu Hf]]]].
      destruct (showSuccess (state p)) eqn:E.
      - exfalso.
        pose proof (is_sheet_url_nonempty _ (success_has_url p Hp E)) as Hne.
        unfold successShown in Hs. rewrite E in Hs.
        destruct (googleSheetUrl (state p)); [congruence|discriminate].
      - split; [exact Hf|exact Hu]. }
  intros e st f st'.
  destruct (handleInputChange_cells e st) as [Hf [He [Hi [Hu Hs]]]].
  fold st' in Hf, He, Hi, Hu, Hs. fold f in He.
  unfold errorShown, successShown. rewrite Hf, He, Hi, Hu, Hs.
  split; [|split; [|split; [|split; [|split; [|split; [|split]]]]]].
  - subst f. destruct e; reflexivity.
  - intros g Hg. subst f.
    destruct e, g; try reflexivity; contradiction Hg; reflexivity.
  - intros g Hg.
    destruct (has_error (errors st) f); [|reflexivity].
    destruct f, g; try reflexivity; contradiction Hg; reflexivity.
  - intros H. rewrite H. destruct f; split; reflexivity.
  - intros H. rewrite H. reflexivity.
  - reflexivity.
  - intros H. apply andb_true_iff in H. destruct H as [H _]. rewrite H.
    repeat split.
  - intros H. rewrite H. split; reflexivity.
Qed.

Lemma edit_clears_only_its_own_error_witness :
  errorShown rejectedState SearchTerms = true
  /\ errorShown rejectedState Location = true
  /\ (let st' := onChange_searchTerms (str "bakery") rejectedState in
      error_of (errors st') SearchTerms = None
      /\ error_of (errors st') Location = Some msg_location).
Proof.
  destruct (proj1 edit_clears_only_its_own_error
              (EditSearchTerms (str "bakery")) rejectedState)
    as [_ [_ [Hother [Hown _]]]].
  split; [reflexivity|]. split; [reflexivity|].
  split.
  - exact (proj1 (Hown eq_refl)).
  - exact (eq_trans (Hother Location ltac:(discriminate)) eq_refl).
Defined.

(** An error and a success can be shown together; the edit of that field
    then clears its error and the success, and keeps the other error
    cells. *)
Example edit_with_error_and_success :
  exists p,
    run editedInFlightSession initialPage = Some p
    /\ errorShown (state p) SearchTerms = true
    /\ successShown (state p) = true
    /\ (let st' := onChange_searchTerms (str "bakery") (state p) in
        errorShown st' SearchTerms = false
        /\ successShown st' = false
        /\ googleSheetUrl st' = []
        /\ error_of (errors st') Location = error_of (errors (state p)) Location).
Proof.
  eexists. split; [vm_compute; reflexivity|].
  repeat split.
Qed.


(* ================================================================= *)
(** * Further properties *)
(* ================================================================= *)

(** ** The expression and the trimming *)

(** X10. [match] with the expression of lines 95 and 108 returns the
    first match when the string holds a word of the language, and [null]
    exactly when it holds none; a returned URL is a part of the string. *)
Theorem regex_match_is_the_first_match : forall s,
  (forall u, regex_match s = Some u <-> first_match s u)
  /\ (regex_match s = None <-> forall u, ~ occurs_in s u).
Proof.
  intros s. split.
  - intros u. split; [apply regex_match_Some|].
    intros Hf.
    assert (Ho : occurs_in s u).
    { destruct Hf as [pre [post [E [Hu _]]]]. exists pre, post. auto. }
    destruct (regex_match_occurs s u Ho) as [m [Hm Hfm]].
    rewrite Hm. f_equal. exact (first_match_unique s m u Hfm Hf).
  - split.
    + intros H u. exact (regex_match_None s u H).
    + intros H. destruct (regex_match s) as [m|] eqn:E; [|reflexivity].
      exfalso. apply regex_match_Some in E.
      destruct E as [pre [post [E [Hu _]]]].
      apply (H m). exists pre, post. auto.
Qed.

Section Blank.

Lemma trimStart_nil : forall s,
  trimStart s = [] <-> Forall (fun c => isWhiteSpace c = true) s.
Proof.
  induction s as [|c s IH]; simpl.
  - split; [constructor|reflexivity].
  - destruct (isWhiteSpace c) eqn:E.
    + rewrite IH. split; [constructor; assumption|].
      intros H. inversion H. assumption.
    + split; [discriminate|]. intros H. inversion H. congruence.
Qed.

Lemma trimStart_head : forall s c r,
  trimStart s = c :: r -> isWhiteSpace c = false.
Proof.
  induction s as [|x s IH]; simpl; intros c r H; [discriminate|].
  destruct (isWhiteSpace x) eqn:E; [exact (IH c r H)|].
  injection H as <- _. exact E.
Qed.

Lemma trim_nil : forall s,
  trim s = [] <-> Forall (fun c => isWhiteSpace c = true) s.
Proof.
  intros s. unfold trim, trimEnd. split.
  - intros H. apply trimStart_nil.
    destruct (trimStart s) as [|c r] eqn:E; [reflexivity|].
    apply (f_equal (@rev code_unit)) in H. rewrite rev_involutive in H.
    change (@rev code_unit []) with (@nil code_unit) in H.
    apply trimStart_nil in H.
    apply Forall_rev in H. rewrite rev_involutive in H.
    inversion H as [|? ? Hc _]. apply trimStart_head in E. congruence.
  - intros H. apply trimStart_nil in H. rewrite H. reflexivity.
Qed.

End Blank.

(** X11. Validation rejects the search terms exactly when every one of
    their characters is white space (none at all included), and likewise
    the location; such a form is not sent. *)
Theorem blank_fields_are_rejected : forall st,
  (errorShown (snd (validateForm st)) SearchTerms = true
   <-> Forall (fun c => isWhiteSpace c = true) (searchTerms (formData st)))
  /\ (errorShown (snd (validateForm st)) Location = true
      <-> Forall (fun c => isWhiteSpace c = true) (location (formData st)))
  /\ (Forall (fun c => isWhiteSpace c = true) (searchTerms (formData st))
      \/ Forall (fun c => isWhiteSpace c = true) (location (formData st)) ->
      fst (validateForm st) = false
      /\ forall now, snd (handleSubmit_begin now st) = [PreventDefault]).
Proof.
  intros st. rewrite validateForm_state. unfold errorShown.
  cbn [fst snd errors setErrors]. rewrite !newErrors_has_error.
  cbn [invalid]. rewrite !is_empty_true, !trim_nil.
  split; [reflexivity|]. split; [reflexivity|].
  intros H.
  assert (Hi : invalid (formData st) SearchTerms
               || invalid (formData st) Location
               || invalid (formData st) NumberOfPlaces = true).
  { cbn [invalid].
    destruct H as [H|H]; apply trim_nil in H; rewrite H;
      cbn [is_empty orb]; [reflexivity|].
    destruct (is_empty (trim (searchTerms (formData st)))); reflexivity. }
  cbn [invalid] in Hi. rewrite Hi. split; [reflexivity|].
  intros now. unfold handleSubmit_begin. rewrite validateForm_state.
  cbn [invalid]. rewrite Hi. reflexivity.
Qed.

Lemma blank_fields_are_rejected_witness :
  fst (validateForm
         (onChange_searchTerms [32; 9; 10; 160]%N sampleState)) = false.
Proof.
  refine (proj1 (proj2 (proj2 (blank_fields_are_rejected
                                 (onChange_searchTerms [32; 9; 10; 160]%N
                                    sampleState))) _)).
  left. repeat constructor.
Defined.


(** ** Invariants of the page *)

Section PageInvariants.

(** The test on a field reads the value of that field only. *)
Lemma invalid_value_of : forall fd fd' f,
  value_of fd f = value_of fd' f -> invalid fd f = invalid fd' f.
Proof.
  intros fd fd' f H. destruct f; simpl in *; injection H as ->; reflexivity.
Qed.

Lemma assign_value_of : forall e fd g,
  g <> edit_field e -> value_of (assign e fd) g = value_of fd g.
Proof.
  intros e fd g Hg.
  destruct e, g; try reflexivity; contradiction Hg; reflexivity.
Qed.

Lemma with_error_other : forall e f g v,
  g <> f -> error_of (with_error e f v) g = error_of e g.
Proof.
  intros e f g v Hg. destruct f, g; try reflexivity; contradiction Hg;
    reflexivity.
Qed.

Lemma with_error_same : forall e f v, error_of (with_error e f v) f = v.
Proof. intros e f v. destruct f; reflexivity. Qed.

Lemma field_eq_dec : forall f g : field, {f = g} + {f <> g}.
Proof. decide equality. Qed.

Lemma message_of_shown : forall f, is_empty (message_of f) = false.
Proof. intros f. destruct f; reflexivity. Qed.

(** An error cell holds nothing or the message of its field, and then the
    field fails the test. *)
Lemma errors_invariant : forall p,
  reachable p ->
  forall f,
    error_of (errors (state p)) f = None
    \/ (error_of (errors (state p)) f = Some (message_of f)
        /\ invalid (formData (state p)) f = true).
Proof.
  assert (E : forall e st,
             (forall f,
                 error_of (errors st) f = None
                 \/ (error_of (errors st) f = Some (message_of f)
                     /\ invalid (formData st) f = true)) ->
             forall f,
               error_of (errors (handleInputChange e st)) f = None
               \/ (error_of (errors (handleInputChange e st)) f
                   = Some (message_of f)
                   /\ invalid (formData (handleInputChange e st)) f = true)).
  { intros e st IH f.
    destruct (handleInputChange_cells e st) as [-> [-> _]].
    destruct (field_eq_dec f (edit_field e)) as [->|Hne].
    - left. unfold has_error.
      destruct (IH (edit_field e)) as [H|[H _]]; rewrite H.
      + exact H.
      + rewrite message_of_shown. cbn [negb]. apply with_error_same.
    - rewrite (invalid_value_of (assign e (formData st)) (formData st) f)
        by (apply assign_value_of; exact Hne).
      destruct (has_error (errors st) (edit_field e));
        [rewrite (with_error_other _ _ _ _ Hne)|]; apply IH. }
  intros p Hp. revert p Hp.
  apply (reachable_state_ind
           (fun st => forall f,
                error_of (errors st) f = None
                \/ (error_of (errors st) f = Some (message_of f)
                    /\ invalid (formData st) f = true))).
  - intros f. left. destruct f; reflexivity.
  - intros v st IH. apply E, IH.
  - intros v st IH. apply E, IH.
  - intros v st IH. apply E, IH.
  - intros now st _ f. rewrite handleSubmit_begin_state, validateForm_state.
    cbn [fst snd].
    destruct (negb _); cbn [errors formData setErrors setGoogleSheetUrl
                            setShowSuccess setIsSubmitting];
      rewrite newErrors_error_of;
      destruct (invalid (formData st) f); auto.
  - intros o st IH f. unfold handleSubmit_resume.
    destruct (interpret o) as [[url|error] effs]; apply IH.
Qed.

(** The three status cells: the flag of success and the URL go together,
    and never with [isSubmitting]. *)
Lemma status_invariant : forall p,
  reachable p ->
  (showSuccess (state p) = true ->
   is_sheet_url (googleSheetUrl (state p)) /\ isSubmitting (state p) = false)
  /\ (showSuccess (state p) = false -> googleSheetUrl (state p) = []).
Proof.
  assert (E : forall e st,
             (showSuccess st = false -> googleSheetUrl st = []) ->
             (showSuccess (handleInputChange e st) = true ->
              is_sheet_url (googleSheetUrl (handleInputChange e st))
              /\ isSubmitting (handleInputChange e st) = false)
             /\ (showSuccess (handleInputChange e st) = false ->
                 googleSheetUrl (handleInputChange e st) = [])).
  { intros e st IH.
    destruct (handleInputChange_cells e st) as [_ [_ [_ [-> ->]]]].
    split; [discriminate|]. intros _.
    destruct (showSuccess st); [reflexivity|]. apply IH. reflexivity. }
  apply (reachable_state_ind
           (fun st =>
              (showSuccess st = true ->
               is_sheet_url (googleSheetUrl st) /\ isSubmitting st = false)
              /\ (showSuccess st = false -> googleSheetUrl st = []))).
  - split; [discriminate|reflexivity].
  - intros v st IH. apply E, IH.
  - intros v st IH. apply E, IH.
  - intros v st IH. apply E, IH.
  - intros now st IH. rewrite handleSubmit_begin_state.
    destruct (fst (validateForm st)).
    + split; [discriminate|reflexivity].
    + exact IH.
  - intros o st IH. unfold handleSubmit_resume.
    destruct (interpret o) as [[url|error] effs] eqn:Ei.
    + cbn [fst showSuccess googleSheetUrl isSubmitting setIsSubmitting
           setShowSuccess setGoogleSheetUrl].
      split; [|discriminate]. intros _. split; [|reflexivity].
      apply (interpret_Fulfilled o). rewrite Ei. reflexivity.
    + cbn [fst showSuccess googleSheetUrl isSubmitting setIsSubmitting].
      split; [|apply IH]. intros H. split; [|reflexivity].
      apply IH. exact H.
Qed.

Lemma reachable_ui_reachable : forall p, reachable_ui p -> reachable p.
Proof.
  induction 1 as [|p ev p' Hp IH Hstep]; [constructor|].
  apply (reachable_step p ev p' IH).
  destruct ev; simpl in Hstep; try exact Hstep.
  destruct (submitDisabled (state p)); [discriminate|exact Hstep].
Qed.

End PageInvariants.

(** X2. In every reachable page an error cell holds nothing or the fixed
    message of its field, and an error is shown only for a field whose
    current value fails the test of [validateForm]: an edit of the field
    removes its error, and no other handler changes the field. *)
Theorem errors_only_on_invalid_fields : forall p f,
  reachable p ->
  (error_of (errors (state p)) f = None
   \/ error_of (errors (state p)) f = Some (message_of f))
  /\ (errorShown (state p) f = true ->
      invalid (formData (state p)) f = true
      /\ fails_contract (formData (state p)) f).
Proof.
  intros p f Hp.
  destruct (errors_invariant p Hp f) as [H|[H Hi]].
  - split; [left; exact H|].
    unfold errorShown, has_error. rewrite H. discriminate.
  - split; [right; exact H|]. intros _. split; [exact Hi|].
    apply (invalid_contract_not_NaN _ f (numberOfPlaces_not_NaN p Hp)).
    exact Hi.
Qed.

Lemma errors_only_on_invalid_fields_witness :
  exists p,
    run [Submit a_timestamp] initialPage = Some p
    /\ errorShown (state p) Location = true
    /\ fails_contract (formData (state p)) Location.
Proof.
  destruct (run [Submit a_timestamp] initialPage) as [p|] eqn:E;
    [|vm_compute in E; discriminate].
  exists p. split; [reflexivity|].
  assert (Hs : errorShown (state p) Location = true).
  { vm_compute in E. injection E as <-. reflexivity. }
  split; [exact Hs|].
  exact (proj2 (proj2 (errors_only_on_invalid_fields p Location
                         (run_reachable _ _ _ reachable_initial E)) Hs)).
Defined.

(** X3. In every reachable page the success flag is set exactly when a
    URL is held, so the panel of line 145 is shown exactly when the flag
    is set; and while [isSubmitting] is set there is neither flag nor
    URL: the spinner and the success panel are never shown together. *)
Theorem success_and_submitting_exclude : forall p,
  reachable p ->
  (showSuccess (state p) = true <-> googleSheetUrl (state p) <> [])
  /\ successShown (state p) = showSuccess (state p)
  /\ (isSubmitting (state p) = true ->
      showSuccess (state p) = false /\ googleSheetUrl (state p) = []
      /\ successShown (state p) = false).
Proof.
  intros p Hp. destruct (status_invariant p Hp) as [Ht Hf].
  unfold successShown.
  destruct (showSuccess (state p)) eqn:Es.
  - destruct (Ht eq_refl) as [Hu Hi].
    pose proof (is_sheet_url_nonempty _ Hu) as Hne.
    split; [split; auto|]. split.
    + destruct (googleSheetUrl (state p)); [congruence|reflexivity].
    + rewrite Hi. discriminate.
  - rewrite (Hf eq_refl). split; [split; [discriminate|congruence]|].
    split; [reflexivity|]. intros _. auto.
Qed.

Lemma success_and_submitting_exclude_witness :
  exists p,
    run [ChangeSearchTerms (str "coffee shops"); ChangeLocation (str "Paris");
         Submit a_timestamp] initialPage = Some p
    /\ isSubmitting (state p) = true
    /\ successShown (state p) = false.
Proof.
  destruct (run [ChangeSearchTerms (str "coffee shops");
                 ChangeLocation (str "Paris"); Submit a_timestamp]
              initialPage) as [p|] eqn:E;
    [|vm_compute in E; discriminate].
  exists p. split; [reflexivity|].
  assert (Hs : isSubmitting (state p) = true).
  { vm_compute in E. injection E as <-. reflexivity. }
  split; [exact Hs|].
  exact (proj2 (proj2 (proj2 (proj2 (success_and_submitting_exclude p
           (run_reachable _ _ _ reachable_initial E))) Hs))).
Defined.

(** X4. With the submit button disabled while [isSubmitting] is set, the
    number of requests in flight is 1 while the page is submitting and 0
    otherwise: there is never a second request.  The handler has no guard
    of its own: called on a valid form that is submitting, it issues a
    request all the same. *)
Theorem one_request_in_flight :
  (forall p,
      reachable_ui p ->
      inFlight p = if isSubmitting (state p) then 1%nat else 0%nat)
  /\ (forall now st,
         fst (validateForm st) = true -> isSubmitting st = true ->
         issued (snd (handleSubmit_begin now st)) = 1%nat).
Proof.
  split.
  - induction 1 as [|p ev p' Hp IH Hstep]; [reflexivity|].
    assert (E : forall e st,
               isSubmitting (handleInputChange e st) = isSubmitting st).
    { intros e st. apply handleInputChange_cells. }
    destruct ev as [v|v|v|now|o]; cbn [step_ui] in Hstep.
    + apply step_Some in Hstep. subst p'. cbn [state inFlight].
      unfold onChange_searchTerms. rewrite E. exact IH.
    + apply step_Some in Hstep. subst p'. cbn [state inFlight].
      unfold onChange_location. rewrite E. exact IH.
    + apply step_Some in Hstep. subst p'. cbn [state inFlight].
      unfold onChange_numberOfPlaces. rewrite E. exact IH.
    + unfold submitDisabled in Hstep.
      destruct (isSubmitting (state p)) eqn:Es; [discriminate|].
      apply step_Some in Hstep. subst p'. cbn [state inFlight].
      rewrite IH. unfold handleSubmit_begin.
      destruct (validateForm (state p)) as [valid st1] eqn:Ev.
      unfold validateForm in Ev. injection Ev as _ <-.
      destruct valid; cbn [negb fst snd isSubmitting setErrors
                           setGoogleSheetUrl setShowSuccess setIsSubmitting];
        [reflexivity|rewrite Es; reflexivity].
    + apply step_Some in Hstep. destruct Hstep as [n [Hn ->]].
      cbn [state inFlight].
      assert (R : isSubmitting (fst (handleSubmit_resume o (state p))) = false).
      { unfold handleSubmit_resume.
        destruct (interpret o) as [[url|error] effs]; reflexivity. }
      rewrite R. rewrite Hn in IH.
      destruct (isSubmitting (state p)); [congruence|discriminate].
  - intros now st Hv _. unfold handleSubmit_begin.
    destruct (validateForm st) as [valid st1]. simpl in Hv. subst valid.
    reflexivity.
Qed.

Lemma one_request_in_flight_witness :
  issued (snd (handleSubmit_begin a_timestamp
                 (fst (handleSubmit_begin a_timestamp sampleState)))) = 1%nat.
Proof.
  exact (proj2 one_request_in_flight a_timestamp
           (fst (handleSubmit_begin a_timestamp sampleState))
           eq_refl eq_refl).
Defined.


(** ** How the handlers compose *)

(** X5. Two edits of the same field leave the state of the second edit
    alone (the last value wins and nothing of the first remains), and
    edits of different fields can be made in either order. *)
Theorem edits_compose : forall e1 e2 st,
  (edit_field e1 = edit_field e2 ->
   handleInputChange e2 (handleInputChange e1 st) = handleInputChange e2 st)
  /\ (edit_field e1 <> edit_field e2 ->
      handleInputChange e2 (handleInputChange e1 st)
      = handleInputChange e1 (handleInputChange e2 st)).
Proof.
  intros e1 e2 [fd [[m1|] [m2|] [m3|]] sub url [|]];
    try (destruct m1 as [|c1 m1]);
    try (destruct m2 as [|c2 m2]);
    try (destruct m3 as [|c3 m3]);
    destruct e1, e2; split; intros H;
    try discriminate H; try (contradiction H; reflexivity);
    reflexivity.
Qed.

Lemma edits_compose_witness :
  handleInputChange (EditLocation (str "Paris"))
    (handleInputChange (EditSearchTerms (str "bakery")) rejectedState)
  = handleInputChange (EditSearchTerms (str "bakery"))
      (handleInputChange (EditLocation (str "Paris")) rejectedState).
Proof.
  refine (proj2 (edits_compose (EditSearchTerms (str "bakery"))
                   (EditLocation (str "Paris")) rejectedState) _).
  discriminate.
Defined.

Section SubmitAgain.

Lemma handleSubmit_begin_valid : forall now st,
  fst (validateForm st) = true ->
  handleSubmit_begin now st
  = ({| formData := formData st;
        errors := no_errors;
        isSubmitting := true;
        googleSheetUrl := [];
        showSuccess := false |},
     [PreventDefault; Fetch (mkRequest (formData st) now)]).
Proof.
  intros now st Hv. unfold handleSubmit_begin.
  rewrite validateForm_state in *. cbn [fst] in Hv. rewrite Hv.
  cbn [negb]. f_equal.
  unfold setGoogleSheetUrl, setShowSuccess, setIsSubmitting, setErrors.
  cbn [formData errors isSubmitting googleSheetUrl showSuccess].
  f_equal.
  apply negb_true_iff in Hv. apply orb_false_iff in Hv.
  destruct Hv as [Hv H3]. apply orb_false_iff in Hv. destruct Hv as [H1 H2].
  unfold newErrors_of. cbn [invalid] in H1, H2, H3.
  rewrite H1, H2, H3. reflexivity.
Qed.

Lemma edits_formData : forall during st,
  formData (fold_left (fun s e => handleInputChange e s) during st)
  = edited during (formData st).
Proof.
  induction during as [|e during IH]; intros st; [reflexivity|].
  cbn [fold_left edited]. rewrite IH.
  rewrite (proj1 (handleInputChange_cells e st)). reflexivity.
Qed.

Lemma resume_formData : forall o st,
  formData (fst (handleSubmit_resume o st)) = formData st
  /\ errors (fst (handleSubmit_resume o st)) = errors st.
Proof.
  intros o st. unfold handleSubmit_resume.
  destruct (interpret o) as [[url|error] effs]; split; reflexivity.
Qed.

End SubmitAgain.

(** X6. A valid submit overwrites every cell but the form itself, so what
    an attempt does depends on the form, the edits and the response, not
    on what the page showed before: an earlier success, failure or error
    leaves no trace.  The form ends as the edits left it; without edits
    it ends as it was sent, valid, and can be sent again. *)
Theorem valid_submit_depends_on_the_form_only :
  forall now during o st st',
    fst (validateForm st) = true ->
    formData st' = formData st ->
    submission now during o st' = submission now during o st
    /\ formData (fst (submission now during o st))
       = edited during (formData st)
    /\ (during = [] ->
        errors (fst (submission now during o st)) = no_errors
        /\ fst (validateForm (fst (submission now during o st))) = true).
Proof.
  intros now during o st st' Hv Hfd.
  assert (Hv' : fst (validateForm st') = true).
  { rewrite validateForm_state in *. cbn [fst] in *. rewrite Hfd. exact Hv. }
  unfold submission.
  rewrite (handleSubmit_begin_valid now st Hv),
          (handleSubmit_begin_valid now st' Hv'), Hfd.
  cbn [issued List.filter List.length].
  split; [reflexivity|].
  destruct (handleSubmit_resume o _) as [st3 effs2] eqn:Er.
  cbn [fst].
  assert (H3 : formData st3 = edited during (formData st)
               /\ (during = [] -> errors st3 = no_errors)).
  { match type of Er with
    | handleSubmit_resume o ?s2 = _ =>
        destruct (resume_formData o s2) as [Hf He];
        rewrite Er in Hf, He; cbn [fst] in Hf, He
    end.
    split.
    - rewrite Hf, edits_formData. reflexivity.
    - intros ->. rewrite He. reflexivity. }
  destruct H3 as [Hf He]. split; [exact Hf|].
  intros Hd. split; [exact (He Hd)|].
  rewrite validateForm_state. cbn [fst]. rewrite Hf, Hd.
  rewrite validateForm_state in Hv. exact Hv.
Qed.

Lemma valid_submit_depends_on_the_form_only_witness :
  let failed :=
    fst (submission a_timestamp []
           (Fulfilled {| status := 500; text := Fulfilled body_json |})
           sampleState) in
  submission a_timestamp []
    (Fulfilled {| status := 200; text := Fulfilled body_json |}) failed
  = submission a_timestamp []
      (Fulfilled {| status := 200; text := Fulfilled body_json |}) sampleState.
Proof.
  exact (proj1 (valid_submit_depends_on_the_form_only a_timestamp []
                  (Fulfilled {| status := 200; text := Fulfilled body_json |})
                  sampleState
                  (fst (submission a_timestamp []
                          (Fulfilled {| status := 500;
                                        text := Fulfilled body_json |})
                          sampleState))
                  eq_refl eq_refl)).
Defined.


(** ** The interpretation of the response *)

Section Interpretation.

Lemma ends_exclusive : forall r url message,
  ends_in_Success r url -> ends_in_Failed r message -> False.
Proof.
  intros r url message [_ [Hs _]] [_ [Hf _]]. congruence.
Qed.

(** The URL of a readable body, when there is one. *)
Lemma extract_url_cases : forall responseText,
  (exists url,
      extract_url responseText = Fulfilled url /\ is_sheet_url url
      /\ (try_json responseText = Normal url
          \/ ((exists e, try_json responseText = Throw e)
              /\ first_match responseText url)))
  \/ (extract_url responseText = Rejected (ThrownError msg_no_json)
      /\ (exists e, try_json responseText = Throw e)
      /\ forall u, ~ occurs_in responseText u).
Proof.
  intros responseText. unfold extract_url.
  destruct (try_json responseText) as [url|e] eqn:Et.
  - left. exists url. split; [reflexivity|]. split; [|left; reflexivity].
    apply try_json_Normal in Et. destruct Et as [info Hi].
    apply regex_match_Some in Hi. destruct Hi as [_ [_ [_ [Hi _]]]]. exact Hi.
  - destruct (regex_match responseText) as [url|] eqn:Er.
    + left. exists url. split; [reflexivity|].
      pose proof (regex_match_Some _ _ Er) as Hf.
      split; [destruct Hf as [_ [_ [_ [Hu _]]]]; exact Hu|].
      right. split; [exists e; reflexivity|exact Hf].
    + right. split; [reflexivity|]. split; [exists e; reflexivity|].
      intros u. exact (regex_match_None _ u Er).
Qed.

Lemma interpret_cases : forall o,
  (exists url, fst (interpret o) = Fulfilled url /\ is_sheet_url url)
  \/ (exists error, fst (interpret o) = Rejected error /\ caught o error).
Proof.
  intros o. unfold interpret, caught.
  destruct o as [response|reason]; [|right; exists reason; auto].
  destruct (ok response);
    [|right; exists (ThrownError (http_error_message response)); auto].
  destruct (text response) as [responseText|reason];
    [|right; exists reason; auto].
  cbn [fst].
  destruct (extract_url_cases responseText) as [[url [E [Hu _]]]|[E _]].
  - left. exists url. auto.
  - right. exists (ThrownError msg_no_json). auto.
Qed.

End Interpretation.

(** X7. On a response with a status in 200-299 and a readable body, a
    body whose text holds a sheet URL anywhere always ends the attempt in
    Success; a body without one ends it in Success only through the
    member of the parsed JSON, and otherwise in Failed with the message
    of line 114, the only failure message such a response can produce. *)
Theorem readable_body_outcomes :
  forall now during st status responseText,
    fst (validateForm st) = true ->
    (200 <= status <= 299)%N ->
    let r := submission now during
               (Fulfilled {| status := status;
                             text := Fulfilled responseText |}) st in
    ((exists u, occurs_in responseText u) ->
     exists url, ends_in_Success r url /\ is_sheet_url url)
    /\ ((forall u, ~ occurs_in responseText u) ->
        (exists url, try_json responseText = Normal url
                     /\ ends_in_Success r url)
        \/ ((exists e, try_json responseText = Throw e)
            /\ ends_in_Failed r (msg_alert_prefix ++ msg_no_json)))
    /\ (forall message,
           ends_in_Failed r message ->
           message = msg_alert_prefix ++ msg_no_json
           /\ forall u, ~ occurs_in responseText u).
Proof.
  intros now during st status responseText Hv Hs r.
  assert (Hi : interpret (Fulfilled {| status := status;
                                       text := Fulfilled responseText |})
               = (extract_url responseText,
                  [ReadText; ConsoleLog responseText]))
    by (apply interpret_ok, ok_range; exact Hs).
  assert (S : forall url,
             extract_url responseText = Fulfilled url -> is_sheet_url url ->
             ends_in_Success r url).
  { intros url E Hu. apply submission_Success; [exact Hv| |].
    - rewrite Hi. exact E.
    - apply is_sheet_url_nonempty. exact Hu. }
  assert (F : extract_url responseText = Rejected (ThrownError msg_no_json) ->
              ends_in_Failed r (msg_alert_prefix ++ msg_no_json)).
  { intros E.
    apply (submission_Failed now during _ st (ThrownError msg_no_json) Hv).
    rewrite Hi. exact E. }
  destruct (extract_url_cases responseText)
    as [[url [E [Hu Hfrom]]]|[E [He Hno]]].
  - split; [intros _; exists url; auto|]. split.
    + intros Hno. left. exists url. split; [|auto].
      destruct Hfrom as [Ht|[_ Hf]]; [exact Ht|].
      exfalso. destruct Hf as [pre [post [Eq [Hu' _]]]].
      apply (Hno url). exists pre, post. auto.
    + intros message Hf. exfalso.
      exact (ends_exclusive _ _ _ (S url E Hu) Hf).
  - split; [intros [u Ho]; exfalso; exact (Hno u Ho)|]. split.
    + intros _. right. auto.
    + intros message Hf. split; [|exact Hno].
      destruct (F E) as [_ [_ [_ [_ Ha]]]].
      destruct Hf as [_ [_ [_ [_ Ha']]]].
      apply Ha. apply Ha'. reflexivity.
Qed.

Lemma readable_body_outcomes_witness :
  exists url,
    ends_in_Success
      (submission a_timestamp []
         (Fulfilled {| status := 204; text := Fulfilled body_other_json |})
         sampleState) url
    /\ is_sheet_url url.
Proof.
  refine (proj1 (readable_body_outcomes a_timestamp [] sampleState 204%N
                   body_other_json eq_refl _) _).
  - lia.
  - exists url_ABC123, (quoted "{'result': '"), (quoted "'}").
    split; [reflexivity|].
    exists (str "ABC123"). split; [reflexivity|].
    split; [discriminate|]. repeat constructor.
Defined.

(** X8. A rejected [fetch], and a body that cannot be read, end the
    attempt in Failed: the error is logged and alerted once, with the
    message of the reason when it is an [Error] and with
    [Unknown error occurred] otherwise; the body is not read after a
    rejected [fetch] and not logged when reading it fails. *)
Theorem rejections_are_alerted :
  forall now during st reason,
    fst (validateForm st) = true ->
    (let r := submission now during (Rejected reason) st in
     ends_in_Failed r (alert_text reason)
     /\ snd r = [PreventDefault; Fetch (mkRequest (formData st) now);
                 ConsoleError reason; Alert (alert_text reason)])
    /\ (forall status,
           (200 <= status <= 299)%N ->
           let r := submission now during
                      (Fulfilled {| status := status;
                                    text := Rejected reason |}) st in
           ends_in_Failed r (alert_text reason)
           /\ snd r = [PreventDefault; Fetch (mkRequest (formData st) now);
                       ReadText; ConsoleError reason;
                       Alert (alert_text reason)])
    /\ (forall message,
           reason = ThrownError message ->
           alert_text reason = msg_alert_prefix ++ message)
    /\ (reason = ThrownOther ->
        alert_text reason
        = str "Error submitting form: Unknown error occurred").
Proof.
  intros now during st reason Hv.
  split; [|split; [|split]].
  - cbv zeta. split.
    + apply (submission_Failed now during _ st reason Hv). reflexivity.
    + destruct (submission_valid now during (Rejected reason) st Hv)
        as [st2 [_ [_ [_ ->]]]].
      reflexivity.
  - intros status Hs. cbv zeta.
    assert (Hi : interpret (Fulfilled {| status := status;
                                         text := Rejected reason |})
                 = (Rejected reason, [ReadText])).
    { unfold interpret.
      rewrite (proj2 (ok_range status (Rejected reason)) Hs). reflexivity. }
    split.
    + apply (submission_Failed now during _ st reason Hv).
      rewrite Hi. reflexivity.
    + destruct (submission_valid now during
                  (Fulfilled {| status := status; text := Rejected reason |})
                  st Hv) as [st2 [_ [_ [_ ->]]]].
      unfold handleSubmit_resume. rewrite Hi. reflexivity.
  - intros message ->. reflexivity.
  - intros ->. reflexivity.
Qed.

Lemma rejections_are_alerted_witness :
  ends_in_Failed
    (submission a_timestamp [] (Rejected (ThrownError (str "Failed to fetch")))
       sampleState)
    (str "Error submitting form: Failed to fetch").
Proof.
  exact (proj1 (proj1 (rejections_are_alerted a_timestamp [] sampleState
                         (ThrownError (str "Failed to fetch")) eq_refl))).
Defined.

(** X9. Every attempt on a valid form ends in exactly one of two ways,
    whatever the network does: in Success with a sheet URL, or in Failed
    with one alert, whose text is made from the reason of a rejection,
    from the status, or from the message of line 114. *)
Theorem every_attempt_ends : forall now during o st,
  fst (validateForm st) = true ->
  let r := submission now during o st in
  ((exists url, ends_in_Success r url /\ is_sheet_url url)
   \/ (exists error, caught o error /\ ends_in_Failed r (alert_text error)))
  /\ (forall url message,
         ends_in_Success r url -> ends_in_Failed r message -> False).
Proof.
  intros now during o st Hv r. split; [|apply ends_exclusive].
  destruct (interpret_cases o) as [[url [E Hu]]|[error [E Hc]]].
  - left. exists url. split; [|exact Hu].
    apply submission_Success; [exact Hv|exact E|].
    apply is_sheet_url_nonempty. exact Hu.
  - right. exists error. split; [exact Hc|].
    apply (submission_Failed now during o st error Hv E).
Qed.

Lemma every_attempt_ends_witness :
  let r := submission a_timestamp []
             (Fulfilled {| status := 200; text := Fulfilled (str "[]") |})
             sampleState in
  (exists url, ends_in_Success r url /\ is_sheet_url url)
  \/ (exists error,
         caught (Fulfilled {| status := 200; text := Fulfilled (str "[]") |})
           error
         /\ ends_in_Failed r (alert_text error)).
Proof.
  exact (proj1 (every_attempt_ends a_timestamp []
                  (Fulfilled {| status := 200; text := Fulfilled (str "[]") |})
                  sampleState eq_refl)).
Defined.


Section Range.

Lemma quantifier_free_range : forall z : Z,
  {(1 <= z <= 100)%Z} + {(z < 1 \/ 100 < z)%Z}.
Proof.
  intros z. destruct (Z_lt_dec z 1); [right; lia|].
  destruct (Z_lt_dec 100 z); [right; lia|left; lia].
Qed.

End Range.


(** X12. The structured strategy of lines 90-99 yields a URL exactly
    when the body parses, the element the test of line 93 reads as
    [responseData[0]] is an object, its member [Set Webhook Information]
    is a string, and the expression matches in that string; the URL is
    then that match.  The element is the first one of an array, or the
    member [0] of an object whose [length] is greater than 0. *)
Theorem structured_strategy : forall responseText url,
  try_json responseText = Normal url
  <-> exists responseData fields info,
        JSON_parse responseText = Normal responseData
        /\ first_element responseData = Some (JObject fields)
        /\ get_own key_webhook fields = Some (JString info)
        /\ regex_match info = Some url.
Proof.
  intros responseText url. unfold try_json. split.
  - intros H.
    destruct (JSON_parse responseText) as [v|]; [|discriminate].
    cbn [bind] in H. unfold has_webhook_information in H.
    destruct (truthy v); cbn [negb bind] in H; [|discriminate].
    destruct (length_gt_zero v) as [[|]|] eqn:El; cbn [bind negb] in H;
      try discriminate.
    destruct (index_zero v) as [first|] eqn:Ei; cbn [bind] in H;
      [|discriminate].
    destruct (get_member key_webhook first) as [info|] eqn:Em;
      cbn [bind] in H; [|discriminate].
    destruct (truthy_opt info); [|discriminate].
    cbn [bind] in H.
    destruct info as [[| | |info| |]|]; try discriminate.
    cbn [String_match bind] in H.
    destruct (regex_match info) as [u|] eqn:Er; [|discriminate].
    injection H as ->.
    destruct first as [[| | | | |fields]|]; try discriminate.
    cbn [get_member] in Em. injection Em as Em.
    exists v, fields, info. split; [reflexivity|].
    split; [|split; [exact Em|exact Er]].
    destruct v as [| | |s0|es|ms]; try discriminate.
    + destruct s0; discriminate.
    + destruct es as [|x es]; [discriminate|].
      cbn [index_zero hd_error] in Ei. injection Ei as ->. reflexivity.
    + cbn [length_gt_zero] in El. cbn [index_zero] in Ei.
      injection Ei as Ei. cbn [first_element]. rewrite El. exact Ei.
  - intros [v [fields [info [Hp [Hf [Hm Hr]]]]]]. rewrite Hp. cbn [bind].
    assert (Hinfo : is_empty info = false).
    { destruct info; [vm_compute in Hr; discriminate|reflexivity]. }
    assert (Hw : has_webhook_information v = Normal true
                 /\ index_zero v = Normal (Some (JObject fields))).
    { unfold has_webhook_information.
      destruct v as [| | |s0|es|ms]; try discriminate.
      - destruct s0; discriminate.
      - destruct es as [|x es]; [discriminate|].
        cbn [first_element] in Hf. injection Hf as ->.
        cbn [truthy negb length_gt_zero bind index_zero hd_error get_member].
        rewrite Hm. cbn [bind truthy_opt truthy]. rewrite Hinfo. auto.
      - cbn [first_element] in Hf.
        cbn [truthy negb length_gt_zero bind index_zero].
        destruct (gt_zero (get_own key_length ms)) as [[|]|];
          try discriminate.
        rewrite Hf. cbn [bind negb get_member]. rewrite Hm.
        cbn [bind truthy_opt truthy]. rewrite Hinfo. auto. }
    destruct Hw as [-> ->]. cbn [bind get_member]. rewrite Hm.
    cbn [bind String_match]. rewrite Hr. reflexivity.
Qed.

Lemma structured_strategy_witness :
  try_json
    (quoted "{'length': 1, '0': {'Set Webhook Information': 'https://docs.google.com/spreadsheets/d/k9'}}")
  = Normal (str "https://docs.google.com/spreadsheets/d/k9").
Proof.
  apply (proj2 (structured_strategy _ _)).
  eexists. eexists. eexists.
  split; [vm_compute; reflexivity|].
  split; [vm_compute; reflexivity|].
  split; vm_compute; reflexivity.
Defined.

(** ** The request *)

(** X1. Every request a reachable page issues goes alone, to the fixed
    URL, as a POST of JSON, and carries the form as it is held when
    [handleSubmit] is called: search terms and location not blank and
    not trimmed, a number of places from 1 to 100, and the time stamp. *)
Theorem every_request_is_valid : forall p now request,
  reachable p ->
  In (Fetch request) (snd (handleSubmit_begin now (state p))) ->
  snd (handleSubmit_begin now (state p)) = [PreventDefault; Fetch request]
  /\ request_url request = webhookUrl
  /\ request_method request = str "POST"
  /\ request_contentType request = str "application/json"
  /\ payload_searchTerms (request_body request)
     = searchTerms (formData (state p))
  /\ payload_location (request_body request) = location (formData (state p))
  /\ payload_numberOfPlaces (request_body request)
     = numberOfPlaces (formData (state p))
  /\ payload_timestamp (request_body request) = now
  /\ ~ Forall (fun c => isWhiteSpace c = true)
         (payload_searchTerms (request_body request))
  /\ ~ Forall (fun c => isWhiteSpace c = true)
         (payload_location (request_body request))
  /\ in_range (payload_numberOfPlaces (request_body request)).
Proof.
  intros p now request Hp Hin.
  destruct (fst (validateForm (state p))) eqn:Hv.
  - rewrite (handleSubmit_begin_valid now (state p) Hv) in *.
    cbn [snd In] in Hin. destruct Hin as [H|[H|[]]]; [discriminate|].
    injection H as <-. cbn [snd].
    split; [reflexivity|]. do 7 (split; [reflexivity|]).
    cbn [mkRequest request_body payload_searchTerms payload_location
         payload_numberOfPlaces].
    rewrite validateForm_state in Hv. cbn [fst] in Hv.
    apply negb_true_iff in Hv. apply orb_false_iff in Hv.
    destruct Hv as [Hv H3]. apply orb_false_iff in Hv. destruct Hv as [H1 H2].
    pose proof (numberOfPlaces_not_NaN p Hp) as Hn.
    split; [|split].
    + intros H. apply trim_nil in H. cbn [invalid] in H1.
      rewrite H in H1. discriminate.
    + intros H. apply trim_nil in H. cbn [invalid] in H2.
      rewrite H in H2. discriminate.
    + destruct (numberOfPlaces (formData (state p))) as [|z|negative] eqn:Hz;
        [congruence| |].
      * destruct (quantifier_free_range z) as [Hr|Hr].
        -- exists z. auto.
        -- exfalso.
           assert (Hi : invalid (formData (state p)) NumberOfPlaces = true).
           { cbn [invalid]. rewrite Hz. unfold number_gt, number_lt.
             apply orb_true_iff. rewrite !Z.ltb_lt. lia. }
           congruence.
      * exfalso.
        assert (Hi : invalid (formData (state p)) NumberOfPlaces = true).
        { cbn [invalid]. rewrite Hz. destruct negative; reflexivity. }
        congruence.
  - exfalso. unfold handleSubmit_begin in Hin.
    destruct (validateForm (state p)) as [valid st1]. cbn [fst] in Hv.
    subst valid. cbn [negb snd In] in Hin.
    destruct Hin as [H|[]]. discriminate.
Qed.

Lemma every_request_is_valid_witness :
  exists p,
    run [ChangeSearchTerms (str " coffee shops "); ChangeLocation (str "Paris");
         ChangeNumberOfPlaces (str "25")] initialPage = Some p
    /\ in_range
         (payload_numberOfPlaces
            (request_body (mkRequest (formData (state p)) a_timestamp)))
    /\ payload_searchTerms
         (request_body (mkRequest (formData (state p)) a_timestamp))
       = str " coffee shops ".
Proof.
  destruct (run [ChangeSearchTerms (str " coffee shops ");
                 ChangeLocation (str "Paris");
                 ChangeNumberOfPlaces (str "25")] initialPage)
    as [p|] eqn:E; [|vm_compute in E; discriminate].
  exists p. split; [reflexivity|].
  assert (Hin : In (Fetch (mkRequest (formData (state p)) a_timestamp))
                  (snd (handleSubmit_begin a_timestamp (state p)))).
  { vm_compute in E. injection E as <-. right. left. reflexivity. }
  destruct (every_request_is_valid p a_timestamp _
              (run_reachable _ _ _ reachable_initial E) Hin)
    as [_ [_ [_ [_ [Hs [_ [_ [_ [_ [_ Hr]]]]]]]]]].
  split; [exact Hr|].
  rewrite Hs. vm_compute in E. injection E as <-. reflexivity.
Defined.

(** ** What the component writes and reads back *)

Section Rendering.

Local Open Scope N_scope.

Lemma str_uint_digits : forall d,
  Forall (fun c => isDigit c = true) (str (NilEmpty.string_of_uint d)).
Proof.
  induction d; [constructor | constructor; [reflexivity | exact IHd] ..].
Qed.

Lemma str_cons : forall a s, str (String a s) = N_of_ascii a :: str s.
Proof. reflexivity. Qed.

Lemma str_uint_value : forall d acc,
  fold_left (fun a c => a * 10 + (c - 48)) (str (NilEmpty.string_of_uint d)) acc
  = match acc with
    | 0 => Pos.of_uint d
    | N.pos q => N.pos (Pos.of_uint_acc d q)
    end.
Proof.
  induction d; intros acc.
  1: destruct acc; reflexivity.
  all: cbn [NilEmpty.string_of_uint]; rewrite str_cons; cbn [fold_left];
       rewrite IHd; destruct acc as [|q];
       cbn [Pos.of_uint Pos.of_uint_acc]; try reflexivity.
  all: match goal with
       | |- context [N_of_ascii ?a - 48] =>
           let v := eval vm_compute in (N_of_ascii a - 48) in
           change (N_of_ascii a - 48) with v
       end.
  all: match goal with
       | |- match ?e with _ => _ end = N.pos (Pos.of_uint_acc _ ?p) =>
           replace e with (N.pos p) by lia
       end; reflexivity.
Qed.

Lemma nzhead_not_zero : forall d l, Decimal.nzhead d <> Decimal.D0 l.
Proof. induction d; intros l; cbn [Decimal.nzhead]; try discriminate. apply IHd. Qed.

Lemma unorm_zero : forall d l, Decimal.unorm d = Decimal.D0 l -> l = Decimal.Nil.
Proof.
  intros d l. unfold Decimal.unorm.
  destruct (Decimal.nzhead d) eqn:E; try discriminate.
  - intros H. injection H as <-. reflexivity.
  - exfalso. exact (nzhead_not_zero d _ E).
Qed.

(** The decimal rendering of [n]: digits, at least one, that write [n],
    and no leading zero except for 0 itself. *)
Lemma N_to_jsstring_spec : forall n,
  exists c ds,
    N_to_jsstring n = c :: ds
    /\ Forall (fun c => isDigit c = true) (c :: ds)
    /\ digits_value (c :: ds) = n
    /\ (c = 48 -> ds = []).
Proof.
  intros n. unfold N_to_jsstring.
  pose proof (DecimalN.Unsigned.of_to n) as Hv.
  pose proof (DecimalN.Unsigned.to_of (N.to_uint n)) as Hn. rewrite Hv in Hn.
  assert (Hs : NilZero.string_of_uint (N.to_uint n)
               = NilEmpty.string_of_uint (N.to_uint n)).
  { destruct (N.to_uint n) eqn:E; try reflexivity.
    destruct n; [discriminate|].
    exfalso. exact (DecimalPos.Unsigned.to_uint_nonnil _ E). }
  rewrite Hs.
  assert (Hd := str_uint_digits (N.to_uint n)).
  assert (Hf := str_uint_value (N.to_uint n) 0). cbn beta iota in Hf.
  change (Pos.of_uint (N.to_uint n)) with (N.of_uint (N.to_uint n)) in Hf.
  rewrite Hv in Hf.
  destruct (N.to_uint n) as [|l|l|l|l|l|l|l|l|l|l] eqn:E;
    [ destruct n; [discriminate|];
      exfalso; exact (DecimalPos.Unsigned.to_uint_nonnil _ E) | ..].
  all: cbn [NilEmpty.string_of_uint] in *; rewrite str_cons in *;
       eexists; eexists; split; [reflexivity|];
       split; [exact Hd|]; split; [exact Hf|].
  all: try (intros H; discriminate H).
  intros _. symmetry in Hn. apply unorm_zero in Hn. subst l. reflexivity.
Qed.

Lemma not_digit_in_radix_10 : forall c,
  isDigit c = false -> digit_in_radix 10 c = None.
Proof.
  intros c H. unfold digit_in_radix, digit_value. unfold isDigit in H.
  rewrite H.
  destruct ((97 <=? c) && (c <=? 122)) eqn:E1.
  - apply andb_true_iff in E1. destruct E1 as [A _]. apply N.leb_le in A.
    destruct (N.ltb_spec (c - 87) 10); [lia|reflexivity].
  - destruct ((65 <=? c) && (c <=? 90)) eqn:E2; [|reflexivity].
    apply andb_true_iff in E2. destruct E2 as [A _]. apply N.leb_le in A.
    destruct (N.ltb_spec (c - 55) 10); [lia|reflexivity].
Qed.

Lemma leading_digits_prefix : forall ds tail a,
  Forall (fun c => isDigit c = true) ds ->
  match tail with [] => True | c :: _ => isDigit c = false end ->
  leading_digits 10 (ds ++ tail) (Some a)
  = Some (fold_left (fun a c => a * 10 + (c - 48)) ds a).
Proof.
  induction ds as [|c ds IH]; intros tail a H Ht.
  - destruct tail as [|t tail]; [reflexivity|].
    cbn [app leading_digits fold_left].
    rewrite (not_digit_in_radix_10 t Ht). reflexivity.
  - inversion H as [|? ? Hc Hds]; subst.
    cbn [app leading_digits fold_left].
    rewrite (digit_in_radix_10 c Hc). apply IH; assumption.
Qed.

Lemma digit_head : forall c r,
  isDigit c = true ->
  trimStart (c :: r) = c :: r
  /\ read_sign (c :: r) = (false, c :: r)
  /\ read_minus (c :: r) = (false, c :: r).
Proof.
  intros c r Hc. apply isDigit_cases in Hc.
  repeat (destruct Hc as [->|Hc]; [repeat split|]). subst c. repeat split.
Qed.

(** [parseInt] on an optional minus sign, digits and a rest that does not
    go on with a digit or, after a single digit, with an x. *)
Lemma parseInt_leading_digits : forall (neg : bool) ds tail,
  ds <> [] -> Forall (fun c => isDigit c = true) ds ->
  match tail with
  | [] => True
  | c :: _ => isDigit c = false /\ c <> 120 /\ c <> 88
  end ->
  parseInt ((if neg then [45] else []) ++ ds ++ tail)
  = to_Number neg (digits_value ds).
Proof.
  intros neg [|c ds] tail Hne H Ht; [congruence|]. clear Hne.
  inversion H as [|? ? Hc Hds]; subst.
  assert (Ht' : match tail with [] => True | t :: _ => isDigit t = false end).
  { destruct tail; [exact I|tauto]. }
  assert (Hl : leading_digits 10 ((c :: ds) ++ tail) None
               = Some (digits_value (c :: ds))).
  { cbn [app leading_digits]. rewrite (digit_in_radix_10 c Hc).
    rewrite (leading_digits_prefix ds tail (c - 48) Hds Ht'). reflexivity. }
  assert (Hr : read_radix ((c :: ds) ++ tail) = (10, (c :: ds) ++ tail)).
  { unfold read_radix. cbn [app starts_with].
    destruct (c =? 48); [|reflexivity].
    destruct ds as [|p r].
    - destruct tail as [|t tail]; [reflexivity|]. cbn [app].
      destruct Ht as [_ [A B]].
      apply N.eqb_neq in A. apply N.eqb_neq in B. rewrite A, B. reflexivity.
    - inversion Hds as [|? ? Hp _]; subst. apply isDigit_cases in Hp. cbn [app].
      repeat (destruct Hp as [->|Hp]; [reflexivity|]). subst p. reflexivity. }
  destruct (digit_head c (ds ++ tail) Hc) as [T [S _]].
  unfold parseInt. destruct neg.
  - change ([45] ++ (c :: ds) ++ tail) with (45 :: (c :: ds) ++ tail).
    change (trimStart (45 :: (c :: ds) ++ tail)) with (45 :: (c :: ds) ++ tail).
    change (read_sign (45 :: (c :: ds) ++ tail)) with (true, (c :: ds) ++ tail).
    cbn beta iota. rewrite Hr, Hl. reflexivity.
  - change ([] ++ (c :: ds) ++ tail) with ((c :: ds) ++ tail).
    change ((c :: ds) ++ tail) with (c :: ds ++ tail) at 1.
    rewrite T, S.
    change (c :: ds ++ tail) with ((c :: ds) ++ tail).
    rewrite Hr, Hl. reflexivity.
Qed.

(** The text printed for an integer of magnitude up to 2^53 reads back
    as that integer. *)
Lemma parseInt_number_to_string : forall z,
  (Z.abs z <= 9007199254740992)%Z ->
  exists text,
    number_to_string (Num z) = Some text /\ parseInt text = Num z.
Proof.
  intros z Hz. unfold number_to_string.
  destruct (Z.leb_spec (Z.abs z) 9007199254740992) as [_|G]; [|lia].
  eexists. split; [reflexivity|].
  destruct (N_to_jsstring_spec (Z.abs_N z)) as [c [ds [E [Hd [Hv _]]]]].
  rewrite E.
  assert (Hne : c :: ds <> []) by discriminate.
  assert (Hb : digits_value (c :: ds) <= 9007199254740992) by lia.
  pose proof (parseInt_leading_digits true (c :: ds) [] Hne Hd I) as A.
  pose proof (parseInt_leading_digits false (c :: ds) [] Hne Hd I) as B.
  rewrite List.app_nil_r in A, B. cbn [app] in A, B.
  rewrite (to_Number_exact true _ Hb), Hv in A.
  rewrite (to_Number_exact false _ Hb), Hv in B.
  destruct (Z.ltb_spec z 0).
  - rewrite A. f_equal. lia.
  - rewrite B. f_equal. lia.
Qed.

End Rendering.

Section Stringify.

Local Open Scope N_scope.

Lemma well_formed_forallb : forall s,
  forallb (fun c => c <? 65536) s = true -> well_formed s.
Proof.
  induction s as [|c s IH]; intros H; [constructor|].
  cbn [forallb] in H. apply andb_true_iff in H. destruct H as [Hc Hs].
  constructor; [apply N.ltb_lt; exact Hc|exact (IH Hs)].
Qed.

Lemma hex_value_hex_digit : forall d,
  d < 16 -> hex_value (hex_digit d) = Some d.
Proof.
  intros d H.
  assert (C : d = 0 \/ d = 1 \/ d = 2 \/ d = 3 \/ d = 4 \/ d = 5 \/ d = 6
              \/ d = 7 \/ d = 8 \/ d = 9 \/ d = 10 \/ d = 11 \/ d = 12
              \/ d = 13 \/ d = 14 \/ d = 15) by lia.
  repeat (destruct C as [->|C]; [reflexivity|]). subst d. reflexivity.
Qed.

Lemma hex4_UnicodeEscape : forall c,
  c < 65536 ->
  hex4 (hex_digit (c / 4096)) (hex_digit ((c / 256) mod 16))
       (hex_digit ((c / 16) mod 16)) (hex_digit (c mod 16)) = Some c.
Proof.
  intros c H. unfold hex4.
  assert (E1 : c / 4096 = c / 256 / 16)
    by (rewrite N.Div0.div_div; reflexivity).
  assert (E2 : c / 256 = c / 16 / 16)
    by (rewrite N.Div0.div_div; reflexivity).
  pose proof (N.div_mod (c / 256) 16) as A1.
  pose proof (N.div_mod (c / 16) 16) as A2.
  pose proof (N.div_mod c 16) as A3.
  rewrite (hex_value_hex_digit (c / 4096))
    by (apply N.Div0.div_lt_upper_bound; lia).
  rewrite !hex_value_hex_digit by (apply N.mod_lt; discriminate).
  f_equal. rewrite E1. lia.
Qed.

(** The scanner on a code unit that stands for itself. *)
Lemma scan_string_plain : forall c k,
  c <> 34 -> c <> 92 -> 32 <= c ->
  scan_string (c :: k)
  = match scan_string k with
    | None => None
    | Some (cs, rest) => Some (c :: cs, rest)
    end.
Proof.
  intros c k A B C. cbn [scan_string].
  apply N.eqb_neq in A. apply N.eqb_neq in B. rewrite A, B.
  destruct (N.ltb_spec c 32); [lia|reflexivity].
Qed.

(** The scanner reads back what [quote_unit] writes. *)
Lemma scan_quote_unit : forall c k cs rest,
  c < 65536 -> scan_string k = Some (cs, rest) ->
  scan_string (quote_unit c ++ k) = Some (c :: cs, rest).
Proof.
  intros c k cs rest Hc Hk. unfold quote_unit.
  destruct (N.eqb_spec c 8) as [->|N1]; [simpl; rewrite Hk; reflexivity|].
  destruct (N.eqb_spec c 9) as [->|N2]; [simpl; rewrite Hk; reflexivity|].
  destruct (N.eqb_spec c 10) as [->|N3]; [simpl; rewrite Hk; reflexivity|].
  destruct (N.eqb_spec c 12) as [->|N4]; [simpl; rewrite Hk; reflexivity|].
  destruct (N.eqb_spec c 13) as [->|N5]; [simpl; rewrite Hk; reflexivity|].
  destruct (N.eqb_spec c 34) as [->|N6]; [simpl; rewrite Hk; reflexivity|].
  destruct (N.eqb_spec c 92) as [->|N7]; [simpl; rewrite Hk; reflexivity|].
  destruct ((c <? 32) || isHighSurrogate c || isLowSurrogate c) eqn:E.
  - unfold UnicodeEscape. cbn [app scan_string].
    change (92 =? 34) with false. change (92 =? 92) with true.
    change (117 =? 117) with true. cbn iota.
    rewrite (hex4_UnicodeEscape c Hc), Hk. reflexivity.
  - apply orb_false_iff in E. destruct E as [E _].
    apply orb_false_iff in E. destruct E as [E _].
    apply N.ltb_ge in E. cbn [app].
    pose proof (scan_string_plain c k N6 N7 E) as P. rewrite Hk in P.
    exact P.
Qed.

(** The scanner reads back what [QuoteJSONString] writes between its
    quotes. *)
Lemma scan_quote_units : forall n s rest,
  (List.length s <= n)%nat -> well_formed s ->
  scan_string (quote_units s ++ 34 :: rest) = Some (s, rest).
Proof.
  induction n as [|n IH]; intros s rest Hn Hw.
  - destruct s; [reflexivity|simpl in Hn; lia].
  - destruct s as [|c r]; [reflexivity|].
    inversion Hw as [|? ? Hc Hr]; subst.
    destruct r as [|d r'].
    + cbn [quote_units]. apply scan_quote_unit; [exact Hc|reflexivity].
    + change (quote_units (c :: d :: r'))
        with (if isHighSurrogate c && isLowSurrogate d
              then c :: d :: quote_units r'
              else quote_unit c ++ quote_units (d :: r')).
      destruct (isHighSurrogate c && isLowSurrogate d) eqn:E.
      * apply andb_true_iff in E. destruct E as [Eh El].
        unfold isHighSurrogate in Eh. unfold isLowSurrogate in El.
        apply andb_true_iff in Eh. apply andb_true_iff in El.
        rewrite !N.leb_le in Eh, El.
        inversion Hr as [|? ? Hd Hr']; subst.
        cbn [app].
        rewrite (scan_string_plain c); [|lia|lia|lia].
        rewrite (scan_string_plain d); [|lia|lia|lia].
        rewrite (IH r' rest); [reflexivity| |exact Hr'].
        simpl in Hn. lia.
      * rewrite <- List.app_assoc.
        apply scan_quote_unit; [exact Hc|].
        apply IH; [|exact Hr]. simpl in Hn |- *. lia.
Qed.

Lemma span_digits_prefix : forall ds tail,
  Forall (fun c => isDigit c = true) ds ->
  match tail with [] => True | c :: _ => isDigit c = false end ->
  span_digits (ds ++ tail) = (ds, tail).
Proof.
  induction ds as [|c ds IH]; intros tail H Ht.
  - destruct tail as [|t tail]; [reflexivity|].
    cbn [app span_digits]. rewrite Ht. reflexivity.
  - inversion H as [|? ? Hc Hds]; subst.
    cbn [app span_digits]. rewrite Hc, (IH tail Hds Ht). reflexivity.
Qed.

(** The number scanner reads back a rendered integer that a comma
    follows. *)
Lemma scan_number_rendered : forall (neg : bool) n rest,
  scan_number ((if neg then [45] else []) ++ N_to_jsstring n ++ 44 :: rest)
  = Some (Decimal neg n 0, 44 :: rest).
Proof.
  intros neg n rest.
  destruct (N_to_jsstring_spec n) as [c [ds [E [Hd [Hv Hz]]]]]. rewrite E.
  pose proof (Forall_inv Hd) as Hc. cbn beta in Hc.
  assert (Hi : scan_int ((c :: ds) ++ 44 :: rest)
               = Some (c :: ds, 44 :: rest)).
  { cbn [app scan_int]. destruct (N.eqb_spec c 48) as [->|_].
    - rewrite (Hz eq_refl). reflexivity.
    - rewrite Hc.
      change (c :: ds ++ 44 :: rest) with ((c :: ds) ++ 44 :: rest).
      rewrite (span_digits_prefix (c :: ds) (44 :: rest) Hd eq_refl).
      reflexivity. }
  assert (Hm : read_minus ((if neg then [45] else []) ++ (c :: ds) ++ 44 :: rest)
               = (neg, (c :: ds) ++ 44 :: rest)).
  { destruct neg; [reflexivity|].
    exact (proj2 (proj2 (digit_head c (ds ++ 44 :: rest) Hc))). }
  unfold scan_number. rewrite Hm, Hi.
  change (scan_frac (44 :: rest)) with (Some (@nil code_unit, 44 :: rest)).
  cbn beta iota.
  change (scan_opt_exponent (44 :: rest)) with (Some (0%Z, 44 :: rest)).
  cbn beta iota. rewrite List.app_nil_r, Hv. reflexivity.
Qed.

Lemma parse_value_number_head : forall fuel h t,
  h = 45 \/ isDigit h = true ->
  parse_value (S fuel) (h :: t)
  = match scan_number (h :: t) with
    | Some (d, rest) => ParseOk (JNumber d) rest
    | None => ParseError
    end.
Proof.
  intros fuel h t [->|H]; [reflexivity|].
  apply isDigit_cases in H.
  repeat (destruct H as [->|H]; [reflexivity|]). subst h. reflexivity.
Qed.

(** [JSON.parse] reads back a Number written by [JSON.stringify]. *)
Lemma parse_value_stringify_number : forall fuel n digits rest,
  stringify_number n = Some digits ->
  parse_value (S fuel) (digits ++ 44 :: rest)
  = ParseOk (json_of_number n) (44 :: rest).
Proof.
  intros fuel [|z|negative] digits rest Hs;
    [injection Hs as <-; reflexivity| |injection Hs as <-; reflexivity].
  unfold stringify_number, number_to_string in Hs.
  destruct (Z.abs z <=? 9007199254740992)%Z; [|discriminate].
  injection Hs as <-. unfold json_of_number.
  pose proof (scan_number_rendered (z <? 0)%Z (Z.abs_N z) rest) as H.
  destruct (N_to_jsstring_spec (Z.abs_N z)) as [c [ds [E [Hd _]]]].
  pose proof (Forall_inv Hd) as Hc. cbn beta in Hc.
  destruct (z <? 0)%Z.
  - cbn [app] in H |- *.
    pose proof (parse_value_number_head fuel 45
                  (N_to_jsstring (Z.abs_N z) ++ 44 :: rest)
                  (or_introl eq_refl)) as P.
    cbv delta [code_unit jsstring] in *. rewrite H in P. exact P.
  - cbn [app] in H |- *. rewrite E in H |- *. cbn [app] in H |- *.
    pose proof (parse_value_number_head fuel c (ds ++ 44 :: rest)
                  (or_intror Hc)) as P.
    cbv delta [code_unit jsstring] in *. rewrite H in P. exact P.
Qed.

End Stringify.

Section Body.
Local Open Scope N_scope.

Ltac eval_literals :=
  repeat match goal with
         | |- context [quoted ?s] =>
             let k := eval vm_compute in (quoted s) in
             change (quoted s) with k
         | |- context [str ?s] =>
             let k := eval vm_compute in (str s) in
             change (str s) with k
         end.

Lemma parse_value_string : forall fuel s rest,
  well_formed s ->
  parse_value (S fuel) (QuoteJSONString s ++ rest) = ParseOk (JString s) rest.
Proof.
  intros fuel s rest H. unfold QuoteJSONString. cbn [app].
  rewrite <- (@List.app_assoc code_unit). cbn [app].
  change (parse_value (S fuel) (34 :: quote_units s ++ 34 :: rest))
    with (match scan_string (quote_units s ++ 34 :: rest) with
          | Some (cs, rest') => ParseOk (JString cs) rest'
          | None => ParseError
          end).
  rewrite (scan_quote_units _ s rest (le_n _) H). reflexivity.
Qed.

Lemma parse_value_object : forall fuel t,
  starts_with 125 (skip_ws t) = None ->
  parse_value (S fuel) (123 :: t)
  = match parse_members fuel t with
    | ParseOk ms r => ParseOk (JObject ms) r
    | ParseError => ParseError
    | OutOfFuel => OutOfFuel
    end.
Proof.
  intros fuel t H. cbn [parse_value].
  change (skip_ws (123 :: t)) with (123 :: t). cbn beta iota.
  change (123 =? 91) with false. change (123 =? 123) with true. cbn iota.
  rewrite H. reflexivity.
Qed.

Lemma parse_members_next : forall fuel r k r2 v r4,
  scan_string r = Some (k, 58 :: r2) ->
  parse_value fuel r2 = ParseOk v (44 :: r4) ->
  parse_members (S fuel) (34 :: r)
  = match parse_members fuel r4 with
    | ParseOk ms r5 => ParseOk ((k, v) :: ms) r5
    | ParseError => ParseError
    | OutOfFuel => OutOfFuel
    end.
Proof.
  intros fuel r k r2 v r4 Hk Hv. cbn [parse_members].
  change (skip_ws (34 :: r)) with (34 :: r). cbn [starts_with].
  change (34 =? 34) with true. cbn iota. rewrite Hk.
  change (skip_ws (58 :: r2)) with (58 :: r2). cbn [starts_with].
  change (58 =? 58) with true. cbn iota. rewrite Hv.
  change (skip_ws (44 :: r4)) with (44 :: r4). cbn iota.
  reflexivity.
Qed.

Lemma parse_members_last : forall fuel r k r2 v r4,
  scan_string r = Some (k, 58 :: r2) ->
  parse_value fuel r2 = ParseOk v (125 :: r4) ->
  parse_members (S fuel) (34 :: r) = ParseOk [(k, v)] r4.
Proof.
  intros fuel r k r2 v r4 Hk Hv. cbn [parse_members].
  change (skip_ws (34 :: r)) with (34 :: r). cbn [starts_with].
  change (34 =? 34) with true. cbn iota. rewrite Hk.
  change (skip_ws (58 :: r2)) with (58 :: r2). cbn [starts_with].
  change (58 =? 58) with true. cbn iota. rewrite Hv.
  change (skip_ws (125 :: r4)) with (125 :: r4). cbn iota.
  reflexivity.
Qed.

Lemma parse_value_body : forall b text,
  well_formed (payload_searchTerms b) ->
  well_formed (payload_location b) ->
  well_formed (payload_timestamp b) ->
  JSON_stringify_body b = Some text ->
  parse_value 6 text = ParseOk (json_of_body b) [].
Proof.
  intros [s1 s2 n s4] text H1 H2 H4.
  cbn [payload_searchTerms payload_location payload_timestamp] in *.
  unfold JSON_stringify_body, json_of_body.
  cbn [payload_searchTerms payload_location payload_timestamp
       payload_numberOfPlaces].
  destruct (stringify_number n) as [digits|] eqn:En; [|discriminate].
  intros Ht. injection Ht as <-.
  eval_literals. cbn [app].
  rewrite parse_value_object by reflexivity.
  erewrite parse_members_next;
    [|simpl; reflexivity|apply (parse_value_string 3 s1 _ H1)].
  erewrite parse_members_next;
    [|simpl; reflexivity|apply (parse_value_string 2 s2 _ H2)].
  erewrite parse_members_next;
    [|simpl; reflexivity|apply (parse_value_stringify_number 1 n digits _ En)].
  erewrite parse_members_last;
    [|simpl; reflexivity|apply (parse_value_string 0 s4 _ H4)].
  reflexivity.
Qed.

Lemma JSON_parse_body : forall b text,
  well_formed (payload_searchTerms b) ->
  well_formed (payload_location b) ->
  well_formed (payload_timestamp b) ->
  JSON_stringify_body b = Some text ->
  JSON_parse text = Normal (json_of_body b).
Proof.
  intros b text H1 H2 H4 Ht. unfold JSON_parse.
  pose proof (parse_value_body b text H1 H2 H4 Ht) as P.
  rewrite (proj1 (parse_more_fuel 6) text (parse_fuel text)).
  - rewrite P. reflexivity.
  - unfold JSON_stringify_body in Ht.
    destruct (stringify_number (payload_numberOfPlaces b)); [|discriminate].
    apply (f_equal (fun o => match o with
                             | Some t => List.length t
                             | None => O
                             end)) in Ht.
    cbn beta iota in Ht. rewrite List.length_app in Ht.
    change (List.length (quoted "{'searchTerms':")) with 15%nat in Ht.
    unfold parse_fuel. lia.
  - rewrite P. discriminate.
Qed.

(** The body of a form that passes validation has a text. *)
Lemma JSON_stringify_body_in_range : forall b,
  in_range (payload_numberOfPlaces b) ->
  exists text, JSON_stringify_body b = Some text.
Proof.
  intros b [z [E R]]. unfold JSON_stringify_body. rewrite E.
  unfold stringify_number, number_to_string.
  destruct (Z.leb_spec (Z.abs z) 9007199254740992) as [_|G]; [|lia].
  eexists. reflexivity.
Qed.

End Body.

(** X13. The number input keeps the integer its text starts with:
    [parseInt] reads an optional minus sign and the run of digits after
    it and ignores what follows, unless the run is a single digit that an
    x follows.  What is stored is the double nearest to the integer that
    the digits write, which is that integer when it is at most 2^53.  The
    texts 12.5 and 1e3 are stored as 12 and as 1. *)
Theorem number_input_keeps_the_leading_integer :
  forall (neg : bool) ds tail st,
  ds <> [] ->
  Forall (fun c => isDigit c = true) ds ->
  match tail with
  | [] => True
  | c :: _ => isDigit c = false /\ c <> 120%N /\ c <> 88%N
  end ->
  let text := (if neg then [45%N] else []) ++ ds ++ tail in
  let z := if neg then (- Z.of_N (digits_value ds))%Z
           else Z.of_N (digits_value ds) in
  parseInt text = to_Number neg (digits_value ds)
  /\ ((digits_value ds <= 9007199254740992)%N ->
      parseInt text = Num z
      /\ numberOfPlaces (formData (onChange_numberOfPlaces text st)) = Num z).
Proof.
  intros neg ds tail st Hne Hd Ht text z.
  assert (Hp : parseInt text = to_Number neg (digits_value ds))
    by exact (parseInt_leading_digits neg ds tail Hne Hd Ht).
  split; [exact Hp|]. intros Hb.
  rewrite (to_Number_exact neg (digits_value ds) Hb) in Hp. fold z in Hp.
  split; [exact Hp|].
  rewrite onChange_numberOfPlaces_stores, Hp. apply number_or_zero.
Qed.

Lemma number_input_keeps_the_leading_integer_witness :
  parseInt (str "12.5") = Num 12 /\ parseInt (str "-1e3") = Num (-1).
Proof.
  split.
  - refine (proj1 (proj2 (number_input_keeps_the_leading_integer
                            false (str "12") (str ".5") initialState _ _ _)
                     _)).
    + discriminate.
    + vm_compute. repeat constructor.
    + cbn. repeat split; discriminate.
    + vm_compute. discriminate.
  - refine (proj1 (proj2 (number_input_keeps_the_leading_integer
                            true (str "1") (str "e3") initialState _ _ _)
                     _)).
    + discriminate.
    + vm_compute. repeat constructor.
    + cbn. repeat split; discriminate.
    + vm_compute. discriminate.
Defined.

(** X14. The number input shows [formData.numberOfPlaces] (line 251) and
    stores [parseInt] of its text (line 252): the text shown for an
    integer of magnitude up to 2^53 is its decimal digits and reads back
    as that integer, so a change event that carries the text the input
    already shows leaves the form as it is. *)
Theorem displayed_number_reads_back : forall z st,
  (Z.abs z <= 9007199254740992)%Z ->
  exists text,
    number_to_string (Num z) = Some text
    /\ parseInt text = Num z
    /\ formData (onChange_numberOfPlaces text st)
       = assign (EditNumberOfPlaces (Num z)) (formData st)
    /\ (numberOfPlaces (formData st) = Num z ->
        formData (onChange_numberOfPlaces text st) = formData st).
Proof.
  intros z st Hz.
  destruct (parseInt_number_to_string z Hz) as [text [Ht Hp]].
  exists text. split; [exact Ht|]. split; [exact Hp|].
  assert (He : formData (onChange_numberOfPlaces text st)
               = assign (EditNumberOfPlaces (Num z)) (formData st)).
  { unfold onChange_numberOfPlaces.
    destruct (handleInputChange_cells
                (EditNumberOfPlaces (number_or (parseInt text) (Num 0)))
                st) as [-> _].
    rewrite Hp, number_or_zero. reflexivity. }
  split; [exact He|].
  intros Hn. rewrite He. destruct (formData st) as [a b n].
  cbn [numberOfPlaces] in Hn. subst n. reflexivity.
Qed.

Lemma displayed_number_reads_back_witness :
  exists text,
    number_to_string (Num 10) = Some text
    /\ parseInt text = Num 10
    /\ formData (onChange_numberOfPlaces text initialState)
       = formData initialState.
Proof.
  destruct (displayed_number_reads_back 10 initialState)
    as [text [Ht [Hp [_ He]]]]; [vm_compute; discriminate|].
  exists text. split; [exact Ht|]. split; [exact Hp|].
  apply He. reflexivity.
Defined.

(** X15. The body of the request (lines 77-82) is a JSON text, whatever
    the user typed: [JSON.parse] reads it back as an object with the four
    members of the source in their order, the two strings and the time
    stamp unchanged, code unit for code unit, and the number as it is
    held.  This is for a number of places that validation lets through,
    from 1 to 100. *)
Theorem request_body_parses_back : forall fd now,
  well_formed (searchTerms fd) ->
  well_formed (location fd) ->
  well_formed now ->
  in_range (numberOfPlaces fd) ->
  exists text,
    JSON_stringify_body (request_body (mkRequest fd now)) = Some text
    /\ JSON_parse text
       = Normal
           (JObject
              [(str "searchTerms", JString (searchTerms fd));
               (str "location", JString (location fd));
               (str "numberOfPlaces", json_of_number (numberOfPlaces fd));
               (str "timestamp", JString now)]).
Proof.
  intros fd now H1 H2 H3 Hr.
  destruct (JSON_stringify_body_in_range (request_body (mkRequest fd now)) Hr)
    as [text Ht].
  exists text. split; [exact Ht|].
  exact (JSON_parse_body (request_body (mkRequest fd now)) text H1 H2 H3 Ht).
Qed.

Lemma request_body_parses_back_witness :
  exists text,
    JSON_stringify_body
      (request_body (mkRequest (formData sampleState) a_timestamp))
    = Some text
    /\ JSON_parse text
       = Normal
           (JObject
              [(str "searchTerms",
                JString (searchTerms (formData sampleState)));
               (str "location", JString (location (formData sampleState)));
               (str "numberOfPlaces",
                json_of_number (numberOfPlaces (formData sampleState)));
               (str "timestamp", JString a_timestamp)]).
Proof.
  apply (request_body_parses_back (formData sampleState) a_timestamp).
  - apply well_formed_forallb. vm_compute. reflexivity.
  - apply well_formed_forallb. vm_compute. reflexivity.
  - apply well_formed_forallb. vm_compute. reflexivity.
  - exists 10%Z. split; [reflexivity|lia].
Defined.
